(** * extract-IF: journal-name extraction and impact-factor lookup

    A shallow embedding of [extract-metadata.py] and the properties of its
    matching pipeline.

    Modelling conventions.
    - A Python [str] is a list of characters; a character is a code point in
      U+0000..U+00FF ([ascii] read as Latin-1), classified as CPython classifies
      it ([str.isalpha], [str.isspace], [str.lower], and the classes [\w],
      [\s], [\d] of [re]).
    - The calls into [re] and [difflib] are modelled by what CPython's
      libraries compute: a backtracking matcher for the patterns of the
      source, and [SequenceMatcher] with its longest-match search, its queue
      of ranges and its automatic junk heuristic.
    - A similarity score is the exact rational [2*M/T]; the float that
      [SequenceMatcher.ratio] returns is this rational rounded to the nearest
      double. Thresholds and impact factors are rationals as well, so a
      comparison with a threshold is exact where Python compares doubles.
      The rounding of a reported score to three places is computed on
      doubles, as the code computes it.
    - A cell of a name column of the table holds a string or is blank (the
      [NaN] that pandas puts where the spreadsheet has no value).
    - The readers of a PDF ([extract_text_from_pdf], [extract_metadata]) and
      [pd.read_excel] are input/output: a document is given by what the two
      readers return or raise for it, a spreadsheet by its two columns or the
      exception that reading it raises.
    - A [DataFrame] is a shared mutable object: a function that receives one
      returns its state after the call next to its result. *)

From Stdlib Require Import Ascii String.
From Stdlib Require Import List Bool Arith NArith ZArith QArith Lia.
From Stdlib Require SpecFloat.
Import ListNotations.
Close Scope Q_scope.
Open Scope nat_scope.

(* ================================================================= *)
(** ** Python strings *)

Module PyStr.

Definition pystr := list ascii.

(** String literals of the source are written [s "..."]. *)
Definition s (x : string) : pystr := list_ascii_of_string x.

Definition code (c : ascii) : N := N_of_ascii c.

Definition between (lo hi : N) (c : ascii) : bool :=
  ((lo <=? code c) && (code c <=? hi))%N.

Definition is_code (n : N) (c : ascii) : bool := (code c =? n)%N.

(** [str.isspace], which is also what [str.strip()] removes and what [\s]
    matches in a [str] pattern. *)
Definition isspace (c : ascii) : bool :=
  between 9 13 c || between 28 32 c || is_code 133 c || is_code 160 c.

(** [str.isalpha]: the letters of Latin-1. *)
Definition isalpha (c : ascii) : bool :=
  between 65 90 c || between 97 122 c || is_code 170 c || is_code 181 c || is_code 186 c
  || between 192 214 c || between 216 246 c || between 248 255 c.

(** [\d] of a [str] pattern: decimal digits. *)
Definition isdecimal (c : ascii) : bool := between 48 57 c.

(** [\w] of a [str] pattern: alphanumeric ([isalpha], [isdecimal], [isdigit]
    or [isnumeric]) or the underscore. *)
Definition isword (c : ascii) : bool :=
  isalpha c || isdecimal c || is_code 95 c
  || is_code 178 c || is_code 179 c || is_code 185 c || between 188 190 c.

(** One character of [str.lower()]. *)
Definition lower_char (c : ascii) : ascii :=
  if between 65 90 c || between 192 214 c || between 216 222 c
  then ascii_of_N (code c + 32) else c.

Definition lower (x : pystr) : pystr := map lower_char x.

Fixpoint lstrip (x : pystr) : pystr :=
  match x with
  | c :: t => if isspace c then lstrip t else x
  | [] => []
  end.

Definition rstrip (x : pystr) : pystr := rev (lstrip (rev x)).

(** [x.strip()] *)
Definition strip (x : pystr) : pystr := rstrip (lstrip x).

Definition eqb (x y : pystr) : bool :=
  if list_eq_dec ascii_dec x y then true else false.

Fixpoint startswith (p x : pystr) : bool :=
  match p, x with
  | [], _ => true
  | a :: p', b :: x' => Ascii.eqb a b && startswith p' x'
  | _ :: _, [] => false
  end.

(** [p in x] *)
Fixpoint contains (p x : pystr) : bool :=
  startswith p x ||
  match x with
  | [] => false
  | _ :: t => contains p t
  end.

(** [x.split(sep)[0]] for a one-character separator. *)
Fixpoint split_head (sep : ascii) (x : pystr) : pystr :=
  match x with
  | [] => []
  | c :: t => if Ascii.eqb c sep then [] else c :: split_head sep t
  end.

(** [any(c.isalpha() for c in x)] *)
Definition any_alpha (x : pystr) : bool := existsb isalpha x.

(** Truth value of a string: [if x]. *)
Definition truthy (x : pystr) : bool :=
  match x with [] => false | _ :: _ => true end.

(** [x[:n]] *)
Definition slice_to (n : nat) (x : pystr) : pystr := firstn n x.

End PyStr.

(* ================================================================= *)
(** ** The regular expressions of the source

    A backtracking matcher for the fragment of [re] that the source uses:
    every quantifier there applies to a single-character item, and every
    pattern has at most one capturing group. [run r c] lists the ways [r] can
    match at cursor [c], in the order in which a backtracking engine tries
    them; the first one that lets the rest of the pattern succeed is the
    match. *)

Module Re.
Import PyStr.

Inductive regex : Type :=
| Cls (p : ascii -> bool)
| Rep (greedy : bool) (p : ascii -> bool) (lo : nat) (hi : option nat)
| Seq (r1 r2 : regex)
| Alt (r1 r2 : regex)
| Grp (r : regex)
| Bol
| Eol
| Wb
| Eps.

(** A position in the subject string: the characters before it (nearest
    first), the characters from it on, and what group 1 captured so far. *)
Record cursor : Type := Cursor {
  before : pystr;
  after : pystr;
  g1 : option pystr
}.

Definition start (x : pystr) : cursor := Cursor [] x None.

(** Moving over one character. *)
Definition step (c : cursor) : option cursor :=
  match after c with
  | [] => None
  | a :: t => Some (Cursor (a :: before c) t (g1 c))
  end.

Fixpoint advance (n : nat) (c : cursor) : cursor :=
  match n with
  | O => c
  | S n' => match step c with
            | Some c' => advance n' c'
            | None => c
            end
  end.

(** Length of the longest run of [p] at the head of [x], at most [hi]. *)
Fixpoint run_length (p : ascii -> bool) (hi : option nat) (x : pystr) : nat :=
  match hi with
  | Some O => O
  | _ =>
    match x with
    | a :: t => if p a then S (run_length p (option_map pred hi) t) else O
    | [] => O
    end
  end.

(** The numbers [lo..n], ascending. *)
Definition counts_up (lo n : nat) : list nat := seq lo (S n - lo).

Definition at_word_boundary (c : cursor) : bool :=
  let prev := match before c with a :: _ => isword a | [] => false end in
  let next := match after c with a :: _ => isword a | [] => false end in
  xorb prev next.

Definition at_end (c : cursor) : bool :=
  match after c with
  | [] => true
  | [a] => Ascii.eqb a "010"%char
  | _ => false
  end.

Fixpoint run (r : regex) (c : cursor) : list cursor :=
  match r with
  | Cls p =>
      match after c with
      | a :: _ => if p a then [advance 1 c] else []
      | [] => []
      end
  | Rep greedy p lo hi =>
      let n := run_length p hi (after c) in
      let ks := counts_up lo n in
      map (fun k => advance k c) (if greedy then rev ks else ks)
  | Seq r1 r2 => flat_map (run r2) (run r1 c)
  | Alt r1 r2 => run r1 c ++ run r2 c
  | Grp r0 =>
      map (fun c' => Cursor (before c') (after c')
                       (Some (firstn (length (after c) - length (after c'))
                                     (after c))))
          (run r0 c)
  | Bol => match before c with [] => [c] | _ :: _ => [] end
  | Eol => if at_end c then [c] else []
  | Wb => if at_word_boundary c then [c] else []
  | Eps => [c]
  end.

(** A match object: where the match starts and ends, and group 1. *)
Record rmatch : Type := Match {
  m_start : nat;
  m_end : cursor
}.

(** [match.group(1)]. Group 1 takes part in every match of the patterns of
    this program, so Python's [None] for an unmatched group does not arise. *)
Definition group1 (m : rmatch) : pystr :=
  match g1 (m_end m) with Some g => g | None => [] end.

(** Try to match at the cursor, then at every later position. The argument
    [n] is the number of start positions left, [length (after c) + 1]. *)
Fixpoint search_from (r : regex) (n : nat) (c : cursor) : option rmatch :=
  match n with
  | O => None
  | S n' =>
      match run r c with
      | e :: _ => Some (Match (length (before c)) e)
      | [] => match step c with
              | Some c' => search_from r n' c'
              | None => None
              end
      end
  end.

(** [re.search(r, x)] *)
Definition search (r : regex) (x : pystr) : option rmatch :=
  search_from r (S (length x)) (start x).

(** [re.split(r, x)[0]]: the text before the first match, or all of [x]. The
    patterns split on here never match the empty string. *)
Definition split_head (r : regex) (x : pystr) : pystr :=
  match search r x with
  | Some m => firstn (m_start m) x
  | None => x
  end.

(** [re.sub(r, '', x)] from cursor [c] on: copy up to the next match, drop
    the match, go on after it. [n] bounds the number of matches by the number
    of characters left plus one. *)
Fixpoint sub_from (r : regex) (n : nat) (c : cursor) : pystr :=
  match n with
  | O => after c
  | S n' =>
      match search_from r (S (length (after c))) c with
      | None => after c
      | Some m =>
          let e := m_end m in
          let skipped := firstn (m_start m - length (before c)) (after c) in
          if (length (after e) <? length (after c))%nat
          then skipped ++ sub_from r n' (Cursor (before e) (after e) None)
          else (* an empty match: nothing to drop, move on one character *)
            match step e with
            | Some e' => skipped ++ firstn 1 (after e) ++ sub_from r n' e'
            | None => skipped
            end
      end
  end.

(** [re.sub(r, '', x)] *)
Definition sub_empty (r : regex) (x : pystr) : pystr :=
  sub_from r (S (length x)) (start x).

(** *** Pattern syntax *)

Definition lit (a : ascii) : regex := Cls (Ascii.eqb a).

(** A literal under [re.IGNORECASE]. *)
Definition liti (a : ascii) : regex :=
  Cls (fun x => Ascii.eqb (lower_char x) (lower_char a)).

Fixpoint seqs (rs : list regex) : regex :=
  match rs with
  | [] => Eps
  | [r] => r
  | r :: rs' => Seq r (seqs rs')
  end.

Definition lits (x : string) : regex := seqs (map lit (s x)).
Definition litis (x : string) : regex := seqs (map liti (s x)).

Definition star (p : ascii -> bool) : regex := Rep true p 0 None.
Definition plus (p : ascii -> bool) : regex := Rep true p 1 None.
Definition plus_lazy (p : ascii -> bool) : regex := Rep false p 1 None.
Definition star_lazy (p : ascii -> bool) : regex := Rep false p 0 None.
Definition opt (p : ascii -> bool) : regex := Rep true p 0 (Some 1).
Definition exactly (n : nat) (p : ascii -> bool) : regex := Rep true p n (Some n).

(** [.] without [re.DOTALL] *)
Definition dot (c : ascii) : bool := negb (Ascii.eqb c "010"%char).

End Re.

(* ================================================================= *)
(** ** The Journal Name Extractor *)

Module Extractor.
Import PyStr.

Definition upper_az (c : ascii) : bool := between 65 90 c.
Definition lower_az (c : ascii) : bool := between 97 122 c.

(** [[A-Za-z\s&\-:]] *)
Definition name_char (c : ascii) : bool :=
  upper_az c || lower_az c || isspace c
  || Ascii.eqb c "&" || Ascii.eqb c "-" || Ascii.eqb c ":".

(** [[\d,.:\-]] *)
Definition noise_char (c : ascii) : bool :=
  isdecimal c || Ascii.eqb c "," || Ascii.eqb c "." || Ascii.eqb c ":"
  || Ascii.eqb c "-".

(** [[^\w\s]] *)
Definition punct_char (c : ascii) : bool := negb (isword c || isspace c).

(** [r'^[^\w\s]+'] *)
Definition re_prefix : Re.regex := Re.Seq Re.Bol (Re.plus punct_char).

(** [r'\s*doi:'] with [re.IGNORECASE] *)
Definition re_doi : Re.regex := Re.Seq (Re.star isspace) (Re.litis "doi:").

(** [r'^(.+?)\s+(?:19|20)\d{2}'] *)
Definition re_year : Re.regex :=
  Re.seqs [Re.Bol; Re.Grp (Re.plus_lazy Re.dot); Re.plus isspace;
           Re.Alt (Re.lits "19") (Re.lits "20"); Re.exactly 2 isdecimal].

(** [r'\s*[\d,.:\-]+\s*$'] *)
Definition re_trailing : Re.regex :=
  Re.seqs [Re.star isspace; Re.plus noise_char; Re.star isspace; Re.Eol].

(** [([A-Z][A-Za-z\s&\-:]+?)] and its greedy form *)
Definition name_lazy : Re.regex :=
  Re.Grp (Re.Seq (Re.Cls upper_az) (Re.plus_lazy name_char)).
Definition name_greedy : Re.regex :=
  Re.Grp (Re.Seq (Re.Cls upper_az) (Re.plus name_char)).

Definition newline : ascii := "010"%char.
Definition copyright_sign : ascii := ascii_of_N 169.

(** [r'Published in:?\s*([A-Z][A-Za-z\s&\-:]+?)(?:\n|,|Vol|\d{4})'] *)
Definition re_published : Re.regex :=
  Re.seqs [Re.lits "Published in"; Re.opt (Ascii.eqb ":"); Re.star isspace;
           name_lazy;
           Re.Alt (Re.lit newline)
             (Re.Alt (Re.lit ",")
                (Re.Alt (Re.lits "Vol") (Re.exactly 4 isdecimal)))].

(** [r'([A-Z][A-Za-z\s&\-:]+?)\s+Vol\.\s*\d+'] *)
Definition re_vol : Re.regex :=
  Re.seqs [name_lazy; Re.plus isspace; Re.lits "Vol."; Re.star isspace;
           Re.plus isdecimal].

(** [r'Journal:\s*([A-Z][A-Za-z\s&\-:]+)'] *)
Definition re_journal : Re.regex :=
  Re.seqs [Re.lits "Journal:"; Re.star isspace; name_greedy].

(** [r'©.*?(\b[A-Z][A-Za-z\s&\-:]+?)\s+\d{4}'] *)
Definition re_copyright : Re.regex :=
  Re.seqs [Re.lit copyright_sign; Re.star_lazy Re.dot;
           Re.Grp (Re.seqs [Re.Wb; Re.Cls upper_az; Re.plus_lazy name_char]);
           Re.plus isspace; Re.exactly 4 isdecimal].

Definition patterns : list Re.regex :=
  [re_published; re_vol; re_journal; re_copyright].

(** The first alternative that returns, as a chain of early returns. *)
Definition or_else {A : Type} (x : option A) (y : option A) : option A :=
  match x with Some _ => x | None => y end.

(** Method 1: the text before the first comma. *)
Definition rule_comma (subject : pystr) : option pystr :=
  if contains (s ",") subject then
    let journal_name := strip (split_head "," subject) in
    if truthy journal_name && any_alpha journal_name
    then Some (Re.sub_empty re_prefix journal_name)
    else None
  else None.

(** Method 2: the text before [doi:]. *)
Definition rule_doi (subject : pystr) : option pystr :=
  if contains (s "doi:") (lower subject) then
    let part0 := Re.split_head re_doi subject in
    if truthy (strip part0) then Some (strip part0) else None
  else None.

(** Method 3: the text before a year. *)
Definition rule_year (subject : pystr) : option pystr :=
  match Re.search re_year subject with
  | Some year_match => Some (strip (Re.group1 year_match))
  | None => None
  end.

(** Last resort: the subject without its trailing digits and punctuation. *)
Definition rule_trailing (subject : pystr) : option pystr :=
  let cleaned := strip (Re.sub_empty re_trailing subject) in
  if truthy cleaned && (3 <? length cleaned) then Some cleaned else None.

Definition extract_journal_from_subject (subject : pystr) : option pystr :=
  if negb (truthy subject) then None
  else
    let subject := strip subject in
    or_else (rule_comma subject)
      (or_else (rule_doi subject)
         (or_else (rule_year subject) (rule_trailing subject))).

(** The metadata of a PDF: a dictionary from keys to values. *)
Definition metadata := list (pystr * pystr).

(** [d.get(key)] *)
Fixpoint get (key : pystr) (d : metadata) : option pystr :=
  match d with
  | [] => None
  | (k, v) :: d' => if eqb k key then Some v else get key d'
  end.

(** The loop over [patterns]: the first one found in [text] decides. *)
Fixpoint first_pattern (ps : list Re.regex) (text : pystr) : option pystr :=
  match ps with
  | [] => None
  | p :: ps' =>
      match Re.search p text with
      | Some m => Some (strip (Re.group1 m))
      | None => first_pattern ps' text
      end
  end.

Definition from_subject (md : metadata) : option pystr :=
  match get (s "/Subject") md with
  | Some subject =>
      if truthy subject then
        match extract_journal_from_subject subject with
        | Some journal_name =>
            if truthy journal_name then Some journal_name else None
        | None => None
        end
      else None
  | None => None
  end.

Definition extract_journal_name (text : pystr) (md : metadata) : option pystr :=
  or_else (from_subject md) (first_pattern patterns (slice_to 2000 text)).

End Extractor.

(* ================================================================= *)
(** ** [difflib.SequenceMatcher(None, a, b).ratio()]

    The matcher is built with no junk predicate and with the automatic junk
    heuristic on, as the source builds it. *)

Module Difflib.
Import PyStr.

Definition block : Type := (nat * nat * nat)%type.

Definition size (x : block) : nat := snd x.

(** A dictionary from positions of [b] to lengths, newest entry first. *)
Definition lengths := list (nat * nat).

(** [d.get(j, 0)] *)
Fixpoint get (d : lengths) (j : nat) : nat :=
  match d with
  | [] => 0
  | (j', k) :: d' => if j' =? j then k else get d' j
  end.

(** [d.get(j-1, 0)]: position [-1] is never a key. *)
Definition get_pred (d : lengths) (j : nat) : nat :=
  match j with
  | O => 0
  | S j' => get d j'
  end.

(** Positions of [x] in [l], ascending, counted from [j]. *)
Fixpoint positions (x : ascii) (j : nat) (l : pystr) : list nat :=
  match l with
  | [] => []
  | c :: t =>
      if Ascii.eqb c x then j :: positions x (S j) t else positions x (S j) t
  end.

Section Matcher.

Variables a b : pystr.

Definition at_a (i : nat) : ascii := nth i a zero.
Definition at_b (j : nat) : ascii := nth j b zero.

(** An element of [b] is popular when [b] has at least 200 elements and the
    element occurs more than [len(b) // 100 + 1] times. *)
Definition popular (x : ascii) : bool :=
  (200 <=? length b) && (length b / 100 + 1 <? length (positions x 0 b)).

(** [b2j.get(x, [])]: popular elements were purged from [b2j]. *)
Definition b2j (x : ascii) : list nat :=
  if popular x then [] else positions x 0 b.

(** The inner loop of [find_longest_match] for row [i] over the positions [js]
    of [a[i]] in [b]. *)
Fixpoint scan_row (i blo bhi : nat) (j2len : lengths) (js : list nat)
    (newj2len : lengths) (best : block) : lengths * block :=
  match js with
  | [] => (newj2len, best)
  | j :: js' =>
      if j <? blo then scan_row i blo bhi j2len js' newj2len best
      else if bhi <=? j then (newj2len, best)
      else
        let k := get_pred j2len j + 1 in
        let best' := if size best <? k then (i + 1 - k, j + 1 - k, k) else best in
        scan_row i blo bhi j2len js' ((j, k) :: newj2len) best'
  end.

(** The outer loop: rows [i], [i+1], ..., [n] of them. *)
Fixpoint scan_rows (n i blo bhi : nat) (j2len : lengths) (best : block) : block :=
  match n with
  | O => best
  | S n' =>
      let '(newj2len, best') := scan_row i blo bhi j2len (b2j (at_a i)) [] best in
      scan_rows n' (S i) blo bhi newj2len best'
  end.

(** [while besti > alo and bestj > blo and a[besti-1] == b[bestj-1]] *)
Fixpoint extend_left (alo blo besti bestj bestsize : nat) : block :=
  match besti, bestj with
  | S i', S j' =>
      if (alo <? besti) && (blo <? bestj) && Ascii.eqb (at_a i') (at_b j')
      then extend_left alo blo i' j' (S bestsize)
      else (besti, bestj, bestsize)
  | _, _ => (besti, bestj, bestsize)
  end.

(** [while besti+bestsize < ahi and bestj+bestsize < bhi and
    a[besti+bestsize] == b[bestj+bestsize]]; [n] is [ahi - (besti+bestsize)],
    the number of rounds the first test allows. *)
Fixpoint extend_right (n bhi besti bestj bestsize : nat) : block :=
  match n with
  | O => (besti, bestj, bestsize)
  | S n' =>
      if (bestj + bestsize <? bhi)
         && Ascii.eqb (at_a (besti + bestsize)) (at_b (bestj + bestsize))
      then extend_right n' bhi besti bestj (S bestsize)
      else (besti, bestj, bestsize)
  end.

(** [find_longest_match(alo, ahi, blo, bhi)]. No element is junk, so the two
    loops that absorb junk around the match do nothing. *)
Definition find_longest_match (alo ahi blo bhi : nat) : block :=
  let '(besti, bestj, bestsize) :=
    scan_rows (ahi - alo) alo blo bhi [] (alo, blo, 0) in
  let '(besti, bestj, bestsize) := extend_left alo blo besti bestj bestsize in
  extend_right (ahi - (besti + bestsize)) bhi besti bestj bestsize.

(** The blocks that [get_matching_blocks] collects for one range and, through
    its queue, for the ranges left and right of each block found. They are
    listed in increasing order, as after [matching_blocks.sort()]. [fuel]
    bounds the depth of the ranges. *)
Fixpoint blocks_in (fuel alo ahi blo bhi : nat) : option (list block) :=
  match fuel with
  | O => None
  | S fuel' =>
      let '(i, j, k) := find_longest_match alo ahi blo bhi in
      if k =? 0 then Some []
      else
        let left :=
          if (alo <? i) && (blo <? j) then blocks_in fuel' alo i blo j
          else Some [] in
        let right :=
          if (i + k <? ahi) && (j + k <? bhi)
          then blocks_in fuel' (i + k) ahi (j + k) bhi
          else Some [] in
        match left, right with
        | Some l, Some r => Some (l ++ (i, j, k) :: r)
        | _, _ => None
        end
  end.

Definition get_matching_blocks : option (list block) :=
  blocks_in (S (length a)) 0 (length a) 0 (length b).

(** [sum(triple[-1] for triple in self.get_matching_blocks())]; merging
    adjacent blocks and the closing block of size 0 leave the sum as it is. *)
Definition matches : nat :=
  match get_matching_blocks with
  | Some bs => list_sum (map size bs)
  | None => 0
  end.

(** [_calculate_ratio(matches, length)] *)
Definition calculate_ratio (m len : nat) : Q :=
  if len =? 0 then 1%Q else (Z.of_nat (2 * m) # Pos.of_nat len)%Q.

Definition ratio : Q := calculate_ratio matches (length a + length b).

End Matcher.

End Difflib.

(* ================================================================= *)
(** ** Exceptions *)

Inductive exception : Type :=
| ValueError                     (* [idxmax] of an empty column *)
| KeyError                       (* [loc] of a label that is not in the index *)
| FileNotFoundError              (* the directory does not exist *)
| AttributeError                 (* a method of [str] called on a value that is not one *)
| OtherError (text : PyStr.pystr). (* raised by a reader or by the loader *)

Inductive result (A : Type) : Type :=
| Ok (x : A)
| Raise (e : exception).

Arguments Ok {A} x.
Arguments Raise {A} e.

(* ================================================================= *)
(** ** The reference table and the Impact Factor Resolver *)

Module Resolver.
Import PyStr.

(** A cell of a name column: a string, or no string at all. A blank cell
    of the spreadsheet is read as [NaN], which is a float, and
    [.str.lower().str.strip()] gives [NaN] where the cell holds no
    string. *)
Inductive cell : Type :=
| Text (x : pystr)
| Blank.

Definition is_blank (c : cell) : bool :=
  match c with
  | Blank => true
  | Text _ => false
  end.

(** One row of the table: the columns [journal_name], [impact_factor] and
    [journal_name_lower]. *)
Record entry : Type := Entry {
  journal_name : cell;
  impact_factor : Q;
  journal_name_lower : cell
}.

(** The table: its rows, in index order, and the column [similarity], which
    a frame has only once a lookup has written it. *)
Record DataFrame : Type := Frame {
  rows : list entry;
  similarity : option (list Q)
}.

(** What [pd.read_excel] gives for the spreadsheet at
    [JOURNAL_DATABASE_PATH]: the columns [Journal Name] and [JIF], row by
    row, or an exception. *)
Definition excel_sheet : Type := result (list (cell * Q)).

(** [.str.lower().str.strip()] on one cell. *)
Definition lower_strip (c : cell) : cell :=
  match c with
  | Text x => Text (strip (lower x))
  | Blank => Blank
  end.

(** The frame that [load_journal_database] builds from the two columns:
    they are renamed, and [journal_name_lower] is added. *)
Definition table_of (columns : list (cell * Q)) : DataFrame :=
  Frame (map (fun r => Entry (fst r) (snd r) (lower_strip (fst r))) columns)
        None.

(** [column.str]: pandas gives the accessor of a column that holds a
    string, or no cell at all, and raises for a column of cells none of
    which holds a string (it keeps such a column as numbers). *)
Definition str_accessor (column : list cell) : result (list cell) :=
  match column with
  | [] => Ok []
  | _ :: _ => if forallb is_blank column then Raise AttributeError else Ok column
  end.

Definition load_journal_database (sheet : excel_sheet) : result DataFrame :=
  match sheet with
  | Ok columns =>
      match str_accessor (map fst columns) with
      | Ok _ => Ok (table_of columns)
      | Raise e => Raise e
      end
  | Raise e => Raise e
  end.

Definition calculate_similarity (str1 str2 : pystr) : Q :=
  Difflib.ratio (lower str1) (lower str2).

(** [df['journal_name_lower'] == journal_name_clean] on one cell: a blank
    cell equals no string. *)
Definition cell_eqb (c : cell) (x : pystr) : bool :=
  match c with
  | Text y => eqb y x
  | Blank => false
  end.

(** The function that the lookup applies to a cell of [journal_name_lower]:
    [calculate_similarity] calls [str1.lower()], which a blank cell does not
    have. *)
Definition similarity_of (x : cell) (journal_name_clean : pystr) : result Q :=
  match x with
  | Text x => Ok (calculate_similarity x journal_name_clean)
  | Blank => Raise AttributeError
  end.

(** [column.apply(f)]: the values of [f] down the column; the first call
    that raises ends it. *)
Fixpoint Series_apply {A : Type} (f : A -> result Q) (column : list A)
    : result (list Q) :=
  match column with
  | [] => Ok []
  | x :: rest =>
      match f x with
      | Raise e => Raise e
      | Ok y =>
          match Series_apply f rest with
          | Raise e => Raise e
          | Ok ys => Ok (y :: ys)
          end
      end
  end.

Inductive match_info : Type :=
| Exact (name : cell) (factor : Q)
| Fuzzy (name : cell) (factor : Q) (score : Q).

Definition Qltb (x y : Q) : bool := negb (Qle_bool y x).

(** Position of the first largest element of [l], which starts at position
    [i]; [best] at [best_i] is the largest so far. *)
Fixpoint argmax_from (l : list Q) (i best_i : nat) (best : Q) : nat :=
  match l with
  | [] => best_i
  | x :: t =>
      if Qltb best x then argmax_from t (S i) i x
      else argmax_from t (S i) best_i best
  end.

(** [column.idxmax()]: raises on an empty column. *)
Definition idxmax (column : list Q) : result nat :=
  match column with
  | [] => Raise ValueError
  | x :: t => Ok (argmax_from t 1 0 x)
  end.

(** [df.loc[label]] with the column [similarity] present. *)
Definition loc (df : DataFrame) (label : nat) : result (entry * Q) :=
  match similarity df with
  | Some column =>
      match nth_error (rows df) label, nth_error column label with
      | Some row, Some score => Ok (row, score)
      | _, _ => Raise KeyError
      end
  | None => Raise KeyError
  end.

(** Nearest integer, halves to the even one. *)
Definition round_half_even (q : Q) : Z :=
  let n := Qnum q in
  let d := Zpos (Qden q) in
  let f := (n / d)%Z in
  let twice := (2 * (n mod d))%Z in
  if (twice <? d)%Z then f
  else if (d <? twice)%Z then (f + 1)%Z
  else if Z.even f then f else (f + 1)%Z.

(** Doubles, by the IEEE 754 operations on binary64: the double nearest to
    a whole number, and the double that [2.0 * matches / length] is, one
    division of doubles. *)
Definition prec : Z := 53.
Definition emax : Z := 1024.

Definition float_of_Z (z : Z) : SpecFloat.spec_float :=
  SpecFloat.binary_normalize prec emax z 0 false.

Definition float64 (q : Q) : SpecFloat.spec_float :=
  SpecFloat.SFdiv prec emax (float_of_Z (Qnum q)) (float_of_Z (Zpos (Qden q))).

(** The number that a finite double is. *)
Definition value_of (x : SpecFloat.spec_float) : Q :=
  match x with
  | SpecFloat.S754_finite sign m e =>
      let n := if sign then Zneg m else Zpos m in
      match e with
      | Z0 => (n # 1)%Q
      | Zpos p => (n * 2 ^ Zpos p # 1)%Q
      | Zneg p => (n # 2 ^ p)%Q
      end
  | _ => 0%Q
  end.

(** [round(x, 3)] of a [numpy.float64]: [rint(x * 1000.0) / 1000.0], where
    the product is a product of doubles and [rint] takes a double to the
    nearest whole number, halves to the even one. [n # 1000] stands for the
    double nearest to it, which is what the last division gives. *)
Definition round3 (x : Q) : Q :=
  (round_half_even
     (value_of (SpecFloat.SFmul prec emax (float64 x) (float_of_Z 1000)))
     # 1000)%Q.

(** [get_impact_factor(journal_name, df, threshold)]: the state of [df] after
    the call, and what the call returns or raises. *)
Definition get_impact_factor (journal_name : pystr) (df : DataFrame)
    (threshold : Q) : DataFrame * result (option match_info) :=
  let journal_name_clean := strip (lower journal_name) in
  let exact_match :=
    filter (fun r => cell_eqb (journal_name_lower r) journal_name_clean)
           (rows df) in
  match exact_match with
  | row :: _ =>
      (df, Ok (Some (Exact (row.(Resolver.journal_name)) (impact_factor row))))
  | [] =>
      match Series_apply (fun x => similarity_of x journal_name_clean)
                  (map journal_name_lower (rows df)) with
      | Raise e => (df, Raise e)   (* before the column is assigned *)
      | Ok column =>
          let df := Frame (rows df) (Some column) in
          match idxmax column with
          | Raise e => (df, Raise e)
          | Ok label =>
              match loc df label with
              | Raise e => (df, Raise e)
              | Ok (best_match, score) =>
                  if Qle_bool threshold score
                  then (df, Ok (Some (Fuzzy (best_match.(Resolver.journal_name))
                                        (impact_factor best_match)
                                        (round3 score))))
                  else (df, Ok None)
              end
          end
      end
  end.

(** The default of the parameter [threshold]. *)
Definition default_threshold : Q := (85 # 100)%Q.

End Resolver.

(* ================================================================= *)
(** ** Per-document processing and the batch *)

Module Pipeline.
Import PyStr.
Import Resolver.

(** The messages of the outcome records. *)
Inductive message : Type :=
| LoadFailed (e : exception)   (* loading the journal table failed: str(e) *)
| ReadFailed (e : exception)   (* reading the PDF failed: str(e) *)
| JournalNotRecognised         (* no journal name was recognised *)
| NoMatchingJournal.           (* no matching journal was found *)

Inductive status : Type := success | not_found | error.

Inductive match_type : Type := exact | fuzzy.

(** The dictionary that [process_pdf] returns, by the keys it has. *)
Inductive outcome : Type :=
| Error (msg : message) (extracted_text_preview : option pystr)
| NotFound (msg : message) (extracted_journal_name : pystr)
| Success (extracted_journal_name : pystr) (matched_journal_name : cell)
    (factor : Q) (kind : match_type) (score : option Q).

Definition status_of (o : outcome) : status :=
  match o with
  | Error _ _ => error
  | NotFound _ _ => not_found
  | Success _ _ _ _ _ => success
  end.

(** A PDF file, by what the two readers do on it. *)
Record document : Type := Doc {
  file_path : pystr;
  file_name : pystr;
  extract_text_from_pdf : result pystr;
  extract_metadata : result Extractor.metadata
}.

Definition of_match (journal_name : pystr) (info : match_info) : outcome :=
  match info with
  | Resolver.Exact name factor => Success journal_name name factor exact None
  | Resolver.Fuzzy name factor score =>
      Success journal_name name factor fuzzy (Some score)
  end.

(** [process_pdf] once the table is at hand. *)
Definition process_with (doc : document) (df : DataFrame)
    : DataFrame * result outcome :=
  match extract_text_from_pdf doc with
  | Raise e => (df, Ok (Error (ReadFailed e) None))
  | Ok text =>
      match extract_metadata doc with
      | Raise e => (df, Ok (Error (ReadFailed e) None))
      | Ok md =>
          match Extractor.extract_journal_name text md with
          | None => (df, Ok (Error JournalNotRecognised (Some (slice_to 500 text))))
          | Some journal_name =>
              if negb (truthy journal_name)
              then (df, Ok (Error JournalNotRecognised (Some (slice_to 500 text))))
              else
                match get_impact_factor journal_name df default_threshold with
                | (df', Raise e) => (df', Raise e)
                | (df', Ok None) =>
                    (df', Ok (NotFound NoMatchingJournal journal_name))
                | (df', Ok (Some impact_info)) =>
                    (df', Ok (of_match journal_name impact_info))
                end
          end
      end
  end.

(** [process_pdf(pdf_path, journal_df)]: [sheet] is the spreadsheet that
    [load_journal_database()] would read, [journal_df] the optional argument.
    Returns the state of the caller's table as well. *)
Definition process_pdf (sheet : excel_sheet) (doc : document)
    (journal_df : option DataFrame) : option DataFrame * result outcome :=
  match journal_df with
  | Some df =>
      let '(df', r) := process_with doc df in (Some df', r)
  | None =>
      match load_journal_database sheet with
      | Raise e => (None, Ok (Error (LoadFailed e) None))
      | Ok df => (None, snd (process_with doc df))
      end
  end.

(** One line of the batch report. *)
Record report_line : Type := Line {
  line_path : pystr;
  line_name : pystr;
  line_outcome : outcome
}.

(** The loop of [batch_process_pdfs] over the files found. *)
Fixpoint process_all (sheet : excel_sheet) (pdf_files : list document)
    (df : DataFrame) : DataFrame * result (list report_line) :=
  match pdf_files with
  | [] => (df, Ok [])
  | pdf_file :: rest =>
      match process_pdf sheet pdf_file (Some df) with
      | (state, Raise e) =>
          (match state with Some df' => df' | None => df end, Raise e)
      | (state, Ok batch_result) =>
          let df' := match state with Some df' => df' | None => df end in
          match process_all sheet rest df' with
          | (df'', Raise e) => (df'', Raise e)
          | (df'', Ok batch_results) =>
              (df'', Ok (Line (file_path pdf_file) (file_name pdf_file)
                           batch_result :: batch_results))
          end
      end
  end.

(** [batch_process_pdfs(pdf_directory, journal_df)]: [find_all_pdfs] is what
    the search of the directory returns or raises. *)
Definition batch_process_pdfs (find_all_pdfs : result (list document))
    (sheet : excel_sheet) (journal_df : option DataFrame)
    : option DataFrame * result (list report_line) :=
  match find_all_pdfs with
  | Raise e => (journal_df, Raise e)
  | Ok pdf_files =>
      if length pdf_files =? 0 then (journal_df, Ok [])
      else
        match journal_df with
        | Some df =>
            let '(df', r) := process_all sheet pdf_files df in (Some df', r)
        | None =>
            match load_journal_database sheet with
            | Raise e => (None, Raise e)
            | Ok df => (None, snd (process_all sheet pdf_files df))
            end
        end
  end.

End Pipeline.


(* ================================================================= *)
(** ** The readers of a PDF file *)

Module Reader.
Import PyStr.

(** What [PyPDF2.PdfReader] finds in a file: for every page what
    [extract_text()] returns or raises, and the document information, which
    may be missing. *)
Record pdf_reader : Type := PdfReader {
  pages : list (result pystr);
  metadata : option Extractor.metadata
}.

(** A file on disk: opening and parsing it gives a reader or raises. *)
Definition pdf_file : Type := result pdf_reader.

(** What [pages[page_num]] raises when the index is out of range. *)
Definition index_error : exception := OtherError (s "sequence index out of range").

(** The loop [for page_num in range(pages_to_read)], from [page_num] on with
    [count] rounds to go. *)
Fixpoint read_loop (ps : list (result pystr)) (count page_num : nat)
    (text : pystr) : result pystr :=
  match count with
  | O => Ok text
  | S count' =>
      match nth_error ps page_num with
      | Some (Ok page_text) => read_loop ps count' (S page_num) (text ++ page_text)
      | Some (Raise e) => Raise e
      | None => Raise index_error
      end
  end.

(** [extract_text_from_pdf(pdf_path, max_pages)] *)
Definition extract_text_from_pdf (file : pdf_file) (max_pages : Z) : result pystr :=
  match file with
  | Raise e => Raise e
  | Ok pdf_reader =>
      let pages_to_read :=
        Z.min max_pages (Z.of_nat (length (pages pdf_reader))) in
      read_loop (pages pdf_reader) (Z.to_nat pages_to_read) 0 []
  end.

(** [extract_metadata(pdf_path)]: the entries whose value is not empty. *)
Definition extract_metadata (file : pdf_file) : result Extractor.metadata :=
  match file with
  | Raise e => Raise e
  | Ok pdf_reader =>
      let metadata :=
        match metadata pdf_reader with Some d => d | None => [] end in
      Ok (filter (fun kv => truthy (snd kv)) metadata)
  end.

(** The default of the parameter [max_pages]. *)
Definition default_max_pages : Z := 2%Z.

(** The document that [process_pdf] sees for a file: it calls the two readers
    with the path, the first with its default page limit. *)
Definition document_of (path name : pystr) (file : pdf_file) : Pipeline.document :=
  Pipeline.Doc path name (extract_text_from_pdf file default_max_pages)
    (extract_metadata file).

End Reader.

(* ================================================================= *)
(** ** The summary of a batch *)

Module Report.
Import Pipeline.

Definition status_eqb (x y : status) : bool :=
  match x, y with
  | success, success | not_found, not_found | error, error => true
  | _, _ => false
  end.

(** [sum(1 for r in results if r['status'] == st)] *)
Fixpoint count_status (st : status) (results : list report_line) : nat :=
  match results with
  | [] => 0
  | r :: rest =>
      (if status_eqb (status_of (line_outcome r)) st then 1 else 0)
      + count_status st rest
  end.

(** The numbers that [print_summary] prints: the four counts, and the three
    percentages as exact fractions, before Python rounds them to doubles and
    formats them to one decimal. *)
Record summary : Type := Summary {
  total : nat;
  success_count : nat;
  not_found_count : nat;
  error_count : nat;
  success_percent : Q;
  not_found_percent : Q;
  error_percent : Q
}.

(** [n / total * 100] *)
Definition percent (n total : nat) : Q :=
  ((Z.of_nat n # 1) / (Z.of_nat total # 1) * 100)%Q.

(** [print_summary(results)]: nothing is printed for an empty list. *)
Definition print_summary (results : list report_line) : option summary :=
  match results with
  | [] => None
  | _ :: _ =>
      let total := length results in
      let success := count_status success results in
      let not_found := count_status not_found results in
      let error := count_status error results in
      Some (Summary total success not_found error
              (percent success total) (percent not_found total)
              (percent error total))
  end.

End Report.

(* ================================================================= *)
(** * Properties *)

(** ** The Impact Factor Resolver *)

Section ResolverFacts.
Import PyStr.
Import Resolver.

Lemma Qltb_true (x y : Q) : Qltb x y = true <-> (x < y)%Q.
Proof.
  unfold Qltb. rewrite negb_true_iff. split.
  - intro H. apply Qnot_le_lt. intro L. apply Qle_bool_iff in L. congruence.
  - intro H. destruct (Qle_bool y x) eqn:E; trivial.
    apply Qle_bool_iff in E. exfalso. exact (Qlt_not_le _ _ H E).
Qed.

Lemma Qltb_false (x y : Q) : Qltb x y = false <-> (y <= x)%Q.
Proof.
  unfold Qltb. rewrite negb_false_iff. apply Qle_bool_iff.
Qed.

(** [label] is the position of the first largest element of [column]. *)
Definition first_maximum (column : list Q) (label : nat) (score : Q) : Prop :=
  nth_error column label = Some score /\
  (forall j x, nth_error column j = Some x -> (x <= score)%Q) /\
  (forall j x, j < label -> nth_error column j = Some x -> (x < score)%Q).

Lemma argmax_from_spec (l seen : list Q) (best_i : nat) (best : Q) :
  first_maximum seen best_i best ->
  exists score,
    first_maximum (seen ++ l) (argmax_from l (length seen) best_i best) score.
Proof.
  revert seen best_i best.
  induction l as [|x t IH]; intros seen best_i best (Hn & Hmax & Hfirst); simpl.
  - exists best. rewrite app_nil_r. repeat split; assumption.
  - assert (Hlen : best_i < length seen)
      by (apply nth_error_Some; congruence).
    replace (seen ++ x :: t) with ((seen ++ [x]) ++ t)
      by (rewrite <- app_assoc; reflexivity).
    replace (S (length seen)) with (length (seen ++ [x]))
      by (rewrite length_app; simpl; lia).
    destruct (Qltb best x) eqn:E.
    + apply Qltb_true in E. apply IH. repeat split.
      * rewrite nth_error_app2 by lia. rewrite Nat.sub_diag. reflexivity.
      * intros j y Hj.
        destruct (Nat.lt_ge_cases j (length seen)) as [Lt|Ge].
        -- rewrite nth_error_app1 in Hj by assumption.
           apply Qle_trans with best; [eauto | apply Qlt_le_weak; assumption].
        -- rewrite nth_error_app2 in Hj by assumption.
           destruct (j - length seen) as [|n]; simpl in Hj.
           ++ injection Hj as <-. apply Qle_refl.
           ++ destruct n; discriminate.
      * intros j y Lt Hj. rewrite nth_error_app1 in Hj by assumption.
        apply Qle_lt_trans with best; eauto.
    + apply Qltb_false in E. apply IH. repeat split.
      * rewrite nth_error_app1 by assumption. assumption.
      * intros j y Hj.
        destruct (Nat.lt_ge_cases j (length seen)) as [Lt|Ge].
        -- rewrite nth_error_app1 in Hj by assumption. eauto.
        -- rewrite nth_error_app2 in Hj by assumption.
           destruct (j - length seen) as [|n]; simpl in Hj.
           ++ injection Hj as <-. assumption.
           ++ destruct n; discriminate.
      * intros j y Lt Hj. rewrite nth_error_app1 in Hj by lia. eauto.
Qed.

(** [idxmax] raises exactly on the empty column, and otherwise returns the
    position of the first largest element. *)
Lemma idxmax_spec (column : list Q) :
  column <> [] ->
  exists label score,
    idxmax column = Ok label /\ first_maximum column label score.
Proof.
  destruct column as [|x t]; [congruence|]. intros _.
  destruct (@argmax_from_spec t [x] 0 x) as (score & H).
  - repeat split; simpl.
    + intros [|[|j]] y Hj; simpl in Hj; try discriminate.
      injection Hj as <-. apply Qle_refl.
    + intros j y Lt. lia.
  - exists (argmax_from t 1 0 x), score. split; [reflexivity | exact H].
Qed.

(** The normalized candidate, the rows that match it exactly, and the rows
    whose name cell is blank. *)
Definition clean (name : pystr) : pystr := strip (lower name).

Definition is_exact (name : pystr) (r : entry) : bool :=
  cell_eqb (journal_name_lower r) (clean name).

Definition has_blank (df : DataFrame) : bool :=
  existsb (fun r => is_blank (journal_name_lower r)) (rows df).

(** Every cell of [journal_name_lower] holds a string: [names], down the
    column. *)
Definition names_are (df : DataFrame) (names : list pystr) : Prop :=
  map journal_name_lower (rows df) = map Text names.

(** The scores of the strings [names] against the normalized candidate. *)
Definition scores (name : pystr) (names : list pystr) : list Q :=
  map (fun x => calculate_similarity x (clean name)) names.

Lemma eqb_true (x y : pystr) : eqb x y = true <-> x = y.
Proof.
  unfold eqb. destruct (list_eq_dec ascii_dec x y); split; congruence.
Qed.

Lemma is_exact_true (name : pystr) (r : entry) :
  is_exact name r = true <-> journal_name_lower r = Text (clean name).
Proof.
  unfold is_exact, cell_eqb. destruct (journal_name_lower r) as [x|].
  - rewrite eqb_true. split; congruence.
  - split; discriminate.
Qed.

Lemma is_exact_false (name : pystr) (r : entry) :
  is_exact name r = false <-> journal_name_lower r <> Text (clean name).
Proof.
  rewrite <- is_exact_true. destruct (is_exact name r); split; congruence.
Qed.

Lemma names_are_length (df : DataFrame) (names : list pystr) :
  names_are df names -> length names = length (rows df).
Proof.
  intro H. apply (f_equal (@length cell)) in H.
  rewrite !length_map in H. symmetry. exact H.
Qed.

Lemma names_are_nth (df : DataFrame) (names : list pystr) (i : nat) (row : entry) :
  names_are df names -> nth_error (rows df) i = Some row ->
  exists x, nth_error names i = Some x /\ journal_name_lower row = Text x.
Proof.
  intros H R. apply (f_equal (fun l => nth_error l i)) in H.
  rewrite !nth_error_map, R in H. cbn [option_map] in H.
  destruct (nth_error names i) as [x|]; [|discriminate].
  exists x. split; [reflexivity|]. cbn [option_map] in H. congruence.
Qed.

Lemma names_are_in (df : DataFrame) (names : list pystr) (row : entry) :
  names_are df names -> In row (rows df) ->
  exists x, In x names /\ journal_name_lower row = Text x.
Proof.
  intros H I. apply In_nth_error in I. destruct I as (i & R).
  destruct (names_are_nth _ _ _ _ H R) as (x & N & E).
  exists x. split; [eapply nth_error_In; eassumption | exact E].
Qed.

Lemma names_are_no_blank (df : DataFrame) (names : list pystr) :
  names_are df names -> has_blank df = false.
Proof.
  intro H. unfold has_blank. apply not_true_is_false. intro E.
  apply existsb_exists in E. destruct E as (r & I & B).
  destruct (names_are_in _ _ _ H I) as (x & _ & T). rewrite T in B.
  discriminate.
Qed.

Lemma no_blank_names_are (df : DataFrame) :
  has_blank df = false -> exists names, names_are df names.
Proof.
  unfold has_blank, names_are. induction (rows df) as [|r l IH]; intro H.
  - exists []. reflexivity.
  - cbn [existsb] in H. apply orb_false_iff in H. destruct H as (B & H).
    destruct (IH H) as (names & E).
    destruct (journal_name_lower r) as [x|] eqn:T; [|discriminate].
    exists (x :: names). cbn [map]. rewrite T, E. reflexivity.
Qed.

(** The column that the lookup computes, on a table without a blank name
    cell and on one with a blank name cell. *)
Lemma Series_apply_names (c : pystr) (names : list pystr) :
  Series_apply (fun x => similarity_of x c) (map Text names) =
    Ok (map (fun x => calculate_similarity x c) names).
Proof.
  induction names as [|x l IH]; [reflexivity|].
  cbn [map Series_apply similarity_of]. rewrite IH. reflexivity.
Qed.

Lemma Series_apply_blank (c : pystr) (cells : list cell) :
  existsb is_blank cells = true ->
  Series_apply (fun x => similarity_of x c) cells = Raise AttributeError.
Proof.
  induction cells as [|x l IH]; [discriminate|].
  cbn [existsb Series_apply]. destruct x as [x|]; cbn [is_blank similarity_of orb].
  - intro H. rewrite (IH H). reflexivity.
  - reflexivity.
Qed.

Lemma existsb_of_map {A B : Type} (f : B -> bool) (g : A -> B) (l : list A) :
  existsb f (map g l) = existsb (fun x => f (g x)) l.
Proof.
  induction l as [|a l IH]; [reflexivity|]. cbn [map existsb].
  rewrite IH. reflexivity.
Qed.

Lemma filter_nil_existsb {A : Type} (f : A -> bool) (l : list A) :
  filter f l = [] <-> existsb f l = false.
Proof.
  induction l as [|a l IH]; simpl; [tauto|].
  destruct (f a); simpl; [split; discriminate | exact IH].
Qed.

Lemma filter_head_find {A : Type} (f : A -> bool) (l : list A) :
  find f l = match filter f l with a :: _ => Some a | [] => None end.
Proof.
  induction l as [|a l IH]; simpl; [reflexivity|].
  destruct (f a); [reflexivity | exact IH].
Qed.

(** Loading succeeds on a sheet one of whose rows has a name, and on a
    sheet without rows. *)
Lemma load_journal_database_named
    (columns : list (cell * Q)) (x : pystr) (factor : Q) :
  In (Text x, factor) columns ->
  load_journal_database (Ok columns) = Ok (table_of columns).
Proof.
  intro I. unfold load_journal_database, str_accessor.
  destruct (map fst columns) as [|c l] eqn:E; [reflexivity|].
  destruct (forallb is_blank (c :: l)) eqn:F; [|reflexivity].
  rewrite forallb_forall in F. specialize (F (Text x)).
  rewrite <- E in F. discriminate F.
  apply in_map_iff. exists (Text x, factor). split; [reflexivity | exact I].
Qed.

(** Loading raises on a sheet that has rows, none of them with a name. *)
Lemma load_journal_database_unnamed :
  load_journal_database (Ok [(Blank, 2%Q); (Blank, 3%Q)]) = Raise AttributeError.
Proof. reflexivity. Qed.

Lemma load_journal_database_table (sheet : excel_sheet) (df : DataFrame) :
  load_journal_database sheet = Ok df ->
  exists columns, sheet = Ok columns /\ df = table_of columns.
Proof.
  destruct sheet as [columns|e]; [|discriminate].
  unfold load_journal_database.
  destruct (str_accessor (map fst columns)); [|discriminate].
  intro H. injection H as <-. exists columns. split; reflexivity.
Qed.

(** The lookup on a table with an exact match. *)
Lemma get_impact_factor_exact (name : pystr) (df : DataFrame) (t : Q) (row : entry) :
  find (is_exact name) (rows df) = Some row ->
  get_impact_factor name df t =
    (df, Ok (Some (Exact (journal_name row) (impact_factor row)))).
Proof.
  intro H. rewrite filter_head_find in H. unfold get_impact_factor.
  fold (clean name). fold (is_exact name).
  destruct (filter (is_exact name) (rows df)) as [|r0 l]; [discriminate|].
  injection H as ->. reflexivity.
Qed.

(** The lookup on a table without an exact match, every name cell of which
    holds a string. *)
Lemma get_impact_factor_fuzzy
    (name : pystr) (df : DataFrame) (t : Q) (names : list pystr) :
  find (is_exact name) (rows df) = None ->
  names_are df names ->
  get_impact_factor name df t =
    let df' := Frame (rows df) (Some (scores name names)) in
    match idxmax (scores name names) with
    | Raise e => (df', Raise e)
    | Ok label =>
        match loc df' label with
        | Raise e => (df', Raise e)
        | Ok (best_match, score) =>
            if Qle_bool t score
            then (df', Ok (Some (Fuzzy (journal_name best_match)
                                   (impact_factor best_match) (round3 score))))
            else (df', Ok None)
        end
    end.
Proof.
  intros H N. rewrite filter_head_find in H. unfold get_impact_factor.
  fold (clean name). fold (is_exact name).
  destruct (filter (is_exact name) (rows df)) as [|r0 l]; [|discriminate].
  rewrite N, Series_apply_names. reflexivity.
Qed.

(** The lookup on a table without an exact match that has a blank name
    cell: the call raises before it assigns the column [similarity]. *)
Lemma get_impact_factor_blank (name : pystr) (df : DataFrame) (t : Q) :
  find (is_exact name) (rows df) = None ->
  has_blank df = true ->
  get_impact_factor name df t = (df, Raise AttributeError).
Proof.
  intros H B. rewrite filter_head_find in H. unfold get_impact_factor.
  fold (clean name). fold (is_exact name).
  destruct (filter (is_exact name) (rows df)) as [|r0 l]; [|discriminate].
  rewrite Series_apply_blank; [reflexivity|].
  unfold has_blank in B. rewrite existsb_of_map. exact B.
Qed.

End ResolverFacts.

Section ResolverClaims.
Import PyStr.
Import Resolver.

Lemma find_first {A : Type} (f : A -> bool) (pre post : list A) (x : A) :
  (forall y, In y pre -> f y = false) -> f x = true ->
  find f (pre ++ x :: post) = Some x.
Proof.
  induction pre as [|a pre IH]; simpl; intros Hpre Hx.
  - rewrite Hx. reflexivity.
  - rewrite (Hpre a) by (left; reflexivity). apply IH; auto.
Qed.

Lemma nth_error_lt {A : Type} (l : list A) (n : nat) (x : A) :
  nth_error l n = Some x -> n < length l.
Proof. intro H. apply nth_error_Some. congruence. Qed.

Lemma find_none_existsb {A : Type} (f : A -> bool) (l : list A) :
  find f l = None <-> existsb f l = false.
Proof.
  induction l as [|a l IH]; simpl; [tauto|].
  destruct (f a); simpl; [split; discriminate | exact IH].
Qed.

(** [rint]: the whole number returned is at most one half away. *)
Lemma round_half_even_near (q : Q) :
  (inject_Z (round_half_even q) - (1 # 2) <= q)%Q /\
  (q <= inject_Z (round_half_even q) + (1 # 2))%Q.
Proof.
  destruct q as [n d]. unfold round_half_even. cbn [Qnum Qden].
  pose proof (Z.div_mod n (Zpos d) ltac:(lia)) as Hdm.
  pose proof (Z.mod_pos_bound n (Zpos d) ltac:(lia)) as Hb.
  set (f := (n / Zpos d)%Z) in *. set (m := (n mod Zpos d)%Z) in *.
  unfold Qle, Qminus, Qplus, Qopp, inject_Z. cbn [Qnum Qden].
  destruct (2 * m <? Zpos d)%Z eqn:E1; [apply Z.ltb_lt in E1|apply Z.ltb_ge in E1];
    [|destruct (Zpos d <? 2 * m)%Z eqn:E2;
      [apply Z.ltb_lt in E2|apply Z.ltb_ge in E2; destruct (Z.even f)]];
    split; nia.
Qed.

(** [round(x, 3)] on some scores. The product [0.5075 * 1000.0] of doubles
    is below [507.5], so that this score is reported as [0.507]. *)
Lemma round3_examples :
  round3 (26 # 27) = (963 # 1000)%Q /\
  round3 (2 # 3) = (667 # 1000)%Q /\
  round3 (17 # 20) = (850 # 1000)%Q /\
  round3 (406 # 800) = (507 # 1000)%Q /\
  round3 (1 # 1) = (1000 # 1000)%Q.
Proof. vm_compute. repeat split. Qed.

(** A lookup keeps the rows of the table. *)
Lemma get_impact_factor_keeps_rows (name : pystr) (df : DataFrame) (t : Q) :
  rows (fst (get_impact_factor name df t)) = rows df.
Proof.
  destruct (find (is_exact name) (rows df)) as [row|] eqn:F.
  - rewrite (get_impact_factor_exact _ _ t _ F). reflexivity.
  - destruct (has_blank df) eqn:B.
    + rewrite (get_impact_factor_blank _ _ t F B). reflexivity.
    + destruct (no_blank_names_are _ B) as (names & N).
      rewrite (get_impact_factor_fuzzy _ _ t _ F N). cbv zeta.
      destruct (idxmax (scores name names)) as [label|e]; [|reflexivity].
      destruct (loc _ label) as [[best score]|e]; [|reflexivity].
      destruct (Qle_bool t score); reflexivity.
Qed.

(** C2, as the code has it: a lookup keeps the rows of the table as they are
    (no row is added, and no cell of the columns [journal_name],
    [impact_factor] and [journal_name_lower] changes); with an exact match
    the table is unchanged altogether; without one, the lookup raises before
    it writes anything if a name cell is blank, and on a table whose name
    cells all hold strings it writes the column [similarity], holding the
    score of every row. *)
Theorem get_impact_factor_frame (name : pystr) (df : DataFrame) (t : Q) :
  let df' := fst (get_impact_factor name df t) in
  rows df' = rows df /\
  if existsb (is_exact name) (rows df)
  then df' = df
  else if has_blank df
  then df' = df
  else exists names,
         names_are df names /\ similarity df' = Some (scores name names).
Proof.
  cbv zeta. split; [apply get_impact_factor_keeps_rows|].
  destruct (find (is_exact name) (rows df)) as [row|] eqn:F.
  - rewrite (get_impact_factor_exact _ _ t _ F). cbn [fst].
    destruct (existsb (is_exact name) (rows df)) eqn:E; [reflexivity|].
    apply find_none_existsb in E. congruence.
  - pose proof F as F'. apply find_none_existsb in F'. rewrite F'.
    destruct (has_blank df) eqn:B.
    + rewrite (get_impact_factor_blank _ _ t F B). reflexivity.
    + destruct (no_blank_names_are _ B) as (names & N).
      exists names. split; [exact N|].
      rewrite (get_impact_factor_fuzzy _ _ t _ F N). cbv zeta.
      destruct (idxmax (scores name names)) as [label|e]; [|reflexivity].
      destruct (loc _ label) as [[best score]|e]; [|reflexivity].
      destruct (Qle_bool t score); reflexivity.
Qed.

(** A table of three journals, as [load_journal_database] builds it. *)
Definition three_journals : DataFrame :=
  table_of [(Text (s "Nature"), 69.5%Q); (Text (s "Nature Physics"), 18.4%Q);
             (Text (s "Science"), 45.8%Q)].

(** C2 fails as stated: looking up a name that has no exact match adds the
    column [similarity] to the table. *)
Lemma lookup_writes_similarity_column :
  similarity three_journals = None /\
  similarity (fst (get_impact_factor (s "Cell") three_journals default_threshold))
    = Some [(2 # 10)%Q; (2 # 18)%Q; (4 # 11)%Q] /\
  fst (get_impact_factor (s "Cell") three_journals default_threshold)
    <> three_journals.
Proof.
  split; [reflexivity|]. split; [vm_compute; reflexivity|].
  intro H. apply (f_equal similarity) in H. vm_compute in H. discriminate.
Qed.

(** C3 at the empty table: the lookup raises, for every name and threshold.
    The column of scores is empty and [idxmax] of an empty column raises
    [ValueError]. *)
Theorem get_impact_factor_empty_table_raises
    (name : pystr) (t : Q) (column : option (list Q)) :
  get_impact_factor name (Frame [] column) t = (Frame [] (Some []), Raise ValueError).
Proof. reflexivity. Qed.

(** On a table with at least one row and no blank name cell the lookup
    returns. *)
Lemma get_impact_factor_returns (name : pystr) (df : DataFrame) (t : Q) :
  rows df <> [] -> has_blank df = false ->
  exists r, snd (get_impact_factor name df t) = Ok r.
Proof.
  intros Hne B. destruct (find (is_exact name) (rows df)) as [row|] eqn:F.
  - rewrite (get_impact_factor_exact _ _ t _ F). eexists. reflexivity.
  - destruct (no_blank_names_are _ B) as (names & N).
    rewrite (get_impact_factor_fuzzy _ _ t _ F N). cbv zeta.
    pose proof (names_are_length _ _ N) as Len.
    destruct (@idxmax_spec (scores name names)) as (label & score & -> & Hs & _).
    { unfold scores. destruct names; [|discriminate].
      destruct (rows df); [congruence | discriminate]. }
    unfold loc. cbn [similarity rows]. rewrite Hs.
    assert (L : label < length (rows df)).
    { apply nth_error_lt in Hs. unfold scores in Hs.
      rewrite length_map in Hs. lia. }
    destruct (nth_error (rows df) label) as [row|] eqn:R.
    + destruct (Qle_bool t score); eexists; reflexivity.
    + apply nth_error_None in R. lia.
Qed.

(** C4: when some entry's normalized name equals the normalized candidate,
    the lookup returns an exact match with the journal name and impact factor
    of the first such entry in table order, whatever the scores of the other
    entries are, and leaves the table as it is. *)
Theorem exact_match_precedence
    (name : pystr) (df : DataFrame) (t : Q) (pre post : list entry) (row : entry) :
  rows df = pre ++ row :: post ->
  journal_name_lower row = Text (clean name) ->
  (forall r, In r pre -> journal_name_lower r <> Text (clean name)) ->
  get_impact_factor name df t =
    (df, Ok (Some (Exact (journal_name row) (impact_factor row)))).
Proof.
  intros Hrows Hrow Hpre. apply get_impact_factor_exact. rewrite Hrows.
  apply find_first.
  - intros r Hr. apply is_exact_false. apply Hpre. exact Hr.
  - apply is_exact_true. exact Hrow.
Qed.

(** A table where the second and third rows both normalize to [nature]. *)
Definition duplicate_journals : DataFrame :=
  table_of [(Text (s "Nature Physics"), 18.4%Q); (Text (s "Nature"), 69.5%Q);
             (Text (s " NATURE"), 1%Q)].

Lemma exact_match_precedence_witness :
  get_impact_factor (s "nature ") duplicate_journals default_threshold =
    (duplicate_journals, Ok (Some (Exact (Text (s "Nature")) 69.5%Q))).
Proof.
  apply (@exact_match_precedence (s "nature ") duplicate_journals
           default_threshold
           [Entry (Text (s "Nature Physics")) 18.4%Q (Text (s "nature physics"))]
           [Entry (Text (s " NATURE")) 1%Q (Text (s "nature"))]
           (Entry (Text (s "Nature")) 69.5%Q (Text (s "nature")))).
  - reflexivity.
  - reflexivity.
  - intros r [<-|[]]. vm_compute. discriminate.
Defined.




(** A spreadsheet whose second row has no journal name, and the table that
    [load_journal_database] builds from it. *)
Definition blank_name_sheet : excel_sheet :=
  Ok [(Text (s "Nature"), 69.5%Q); (Blank, 2%Q)].

Definition blank_name_table : DataFrame :=
  table_of [(Text (s "Nature"), 69.5%Q); (Blank, 2%Q)].

(** C5 at a table with a blank name cell, as the loader builds it: the table
    has rows, none of them matches the candidate exactly, and the fuzzy step
    neither returns a match nor none. [calculate_similarity] calls
    [str1.lower()] on the blank cell, and the lookup raises
    [AttributeError], for every threshold; the table is left as it was. *)
Theorem fuzzy_step_raises_on_blank_name (t : Q) :
  load_journal_database blank_name_sheet = Ok blank_name_table /\
  rows blank_name_table <> [] /\
  existsb (is_exact (s "Cell")) (rows blank_name_table) = false /\
  get_impact_factor (s "Cell") blank_name_table t =
    (blank_name_table, Raise AttributeError).
Proof.
  split; [reflexivity|]. split; [discriminate|].
  split; [vm_compute; reflexivity|].
  apply get_impact_factor_blank; vm_compute; reflexivity.
Qed.

End ResolverClaims.

(** ** Per-document processing and the batch *)

Section PipelineClaims.
Import PyStr.
Import Resolver.
Import Pipeline.

(** What a lookup returns depends on the rows of the table only, not on a
    column [similarity] left by an earlier lookup. *)
Lemma get_impact_factor_rows_only (name : pystr) (df1 df2 : DataFrame) (t : Q) :
  rows df1 = rows df2 ->
  snd (get_impact_factor name df1 t) = snd (get_impact_factor name df2 t).
Proof.
  intro H. unfold get_impact_factor, loc. rewrite H.
  destruct (filter _ (rows df2)); [|reflexivity].
  destruct (Series_apply _ _) as [column|e]; [|reflexivity].
  cbn [similarity rows].
  destruct (idxmax _) as [label|e]; [|reflexivity].
  destruct (nth_error (rows df2) label); [|reflexivity].
  destruct (nth_error _ label); [|reflexivity].
  destruct (Qle_bool t q); reflexivity.
Qed.

Lemma process_with_rows_only (doc : document) (df1 df2 : DataFrame) :
  rows df1 = rows df2 ->
  snd (process_with doc df1) = snd (process_with doc df2).
Proof.
  intro H. unfold process_with.
  destruct (extract_text_from_pdf doc) as [text|e]; [|reflexivity].
  destruct (extract_metadata doc) as [md|e]; [|reflexivity].
  destruct (Extractor.extract_journal_name text md) as [name|]; [|reflexivity].
  destruct (negb (truthy name)); [reflexivity|].
  pose proof (@get_impact_factor_rows_only name df1 df2 default_threshold H) as E.
  destruct (get_impact_factor name df1 default_threshold) as [d1 [[i1|]|e1]];
    destruct (get_impact_factor name df2 default_threshold) as [d2 [[i2|]|e2]];
    simpl in E |- *; try discriminate; try reflexivity; congruence.
Qed.

Lemma process_with_rows (doc : document) (df : DataFrame) :
  rows (fst (process_with doc df)) = rows df.
Proof.
  unfold process_with.
  destruct (extract_text_from_pdf doc) as [text|e]; [|reflexivity].
  destruct (extract_metadata doc) as [md|e]; [|reflexivity].
  destruct (Extractor.extract_journal_name text md) as [name|]; [|reflexivity].
  destruct (negb (truthy name)); [reflexivity|].
  pose proof (get_impact_factor_keeps_rows name df default_threshold) as E.
  destruct (get_impact_factor name df default_threshold) as [d [[i|]|e]];
    exact E.
Qed.

(** With at least one row in the table and no blank name cell, processing
    a document returns an outcome record. *)
Lemma process_with_returns (doc : document) (df : DataFrame) :
  rows df <> [] -> has_blank df = false ->
  exists o, snd (process_with doc df) = Ok o.
Proof.
  intros Hne B. unfold process_with.
  destruct (extract_text_from_pdf doc) as [text|e]; [|eexists; reflexivity].
  destruct (extract_metadata doc) as [md|e]; [|eexists; reflexivity].
  destruct (Extractor.extract_journal_name text md) as [name|];
    [|eexists; reflexivity].
  destruct (negb (truthy name)); [eexists; reflexivity|].
  destruct (@get_impact_factor_returns name df default_threshold Hne B) as [r E].
  destruct (get_impact_factor name df default_threshold) as [d [[i|]|e]];
    simpl in E; try discriminate; eexists; reflexivity.
Qed.

(** Reading [doc] raises [e]: the text reader does, or the metadata reader
    does after the text was read. *)
Definition read_error (doc : document) (e : exception) : Prop :=
  extract_text_from_pdf doc = Raise e \/
  (exists text, extract_text_from_pdf doc = Ok text /\
                extract_metadata doc = Raise e).

Lemma process_with_read_error (doc : document) (df : DataFrame) (e : exception) :
  read_error doc e ->
  process_with doc df = (df, Ok (Error (ReadFailed e) None)).
Proof.
  unfold process_with. intros [H|(text & H1 & H2)].
  - rewrite H. reflexivity.
  - rewrite H1, H2. reflexivity.
Qed.

(** C1, as the code has it: when both readers succeed and the extractor finds
    no name, the outcome has status [error], not [not_found]; if the table is
    at hand (passed in, or loaded without failure) the record carries the
    message that no journal name was recognised and the first 500 characters
    of the text. *)
Theorem process_pdf_no_name_is_error
    (sheet : excel_sheet) (doc : document) (journal_df : option DataFrame)
    (text : pystr) (md : Extractor.metadata) :
  extract_text_from_pdf doc = Ok text ->
  extract_metadata doc = Ok md ->
  Extractor.extract_journal_name text md = None ->
  exists o,
    process_pdf sheet doc journal_df = (journal_df, Ok o) /\
    status_of o = error /\
    ((journal_df <> None \/ exists df, load_journal_database sheet = Ok df) ->
     o = Error JournalNotRecognised (Some (slice_to 500 text))).
Proof.
  intros Ht Hm Hx.
  assert (P : forall df, process_with doc df =
            (df, Ok (Error JournalNotRecognised (Some (slice_to 500 text))))).
  { intro df. unfold process_with. rewrite Ht, Hm, Hx. reflexivity. }
  unfold process_pdf. destruct journal_df as [df|].
  - rewrite P. eexists. split; [reflexivity|]. split; [reflexivity|]. trivial.
  - destruct (load_journal_database sheet) as [df|e].
    + rewrite P. eexists. split; [reflexivity|]. split; [reflexivity|]. trivial.
    + eexists. split; [reflexivity|]. split; [reflexivity|].
      intros [H|[df H]]; [congruence | discriminate].
Qed.

(** A PDF that reads well and names no journal. *)
Definition unnamed_pdf : document :=
  Doc (s "papers/notes.pdf") (s "notes.pdf")
      (Ok (s "Lecture notes on nothing in particular")) (Ok []).

(** A spreadsheet that is missing; it is not read when the table is passed
    in. *)
Definition no_table_file : excel_sheet := Raise FileNotFoundError.

Lemma process_pdf_no_name_is_error_witness :
  exists o,
    process_pdf no_table_file unnamed_pdf (Some three_journals)
      = (Some three_journals, Ok o) /\
    status_of o = error /\
    ((Some three_journals <> None \/
      exists df, load_journal_database no_table_file = Ok df) ->
     o = Error JournalNotRecognised
           (Some (slice_to 500 (s "Lecture notes on nothing in particular")))).
Proof.
  apply (@process_pdf_no_name_is_error no_table_file unnamed_pdf
           (Some three_journals) (s "Lecture notes on nothing in particular") []).
  - reflexivity.
  - reflexivity.
  - vm_compute. reflexivity.
Defined.

(** C1 fails as stated: the extractor finds no name in [unnamed_pdf], and the
    outcome has status [error]. *)
Lemma no_name_outcome_is_not_not_found :
  Extractor.extract_journal_name
    (s "Lecture notes on nothing in particular") [] = None /\
  snd (process_pdf no_table_file unnamed_pdf (Some three_journals))
    = Ok (Error JournalNotRecognised
            (Some (s "Lecture notes on nothing in particular"))) /\
  status_of (Error JournalNotRecognised
               (Some (s "Lecture notes on nothing in particular")))
    <> not_found.
Proof.
  split; [vm_compute; reflexivity|]. split; [vm_compute; reflexivity|].
  discriminate.
Qed.

(** C9, as the code has it: when a reader raises, the outcome is an error
    record whose message carries the exception and which has no text preview,
    also when the text had been read before the metadata reader raised; and a
    preview, where an outcome has one, is the first 500 characters of the text
    at most, in the record for an unrecognised journal name. *)
Theorem read_failure_outcome
    (sheet : excel_sheet) (doc : document) (df : DataFrame) :
  (forall e, read_error doc e ->
     process_pdf sheet doc (Some df) = (Some df, Ok (Error (ReadFailed e) None))) /\
  (forall msg preview,
     snd (process_pdf sheet doc (Some df)) = Ok (Error msg (Some preview)) ->
     msg = JournalNotRecognised /\
     length preview <= 500 /\
     exists text, extract_text_from_pdf doc = Ok text /\
                  preview = slice_to 500 text).
Proof.
  split.
  - intros e H. unfold process_pdf. rewrite (@process_with_read_error doc df e H).
    reflexivity.
  - intros msg preview. unfold process_pdf.
    destruct (process_with doc df) as [df' r] eqn:P. cbn [snd].
    intros ->. unfold process_with in P.
    destruct (extract_text_from_pdf doc) as [text|e]; [|discriminate].
    destruct (extract_metadata doc) as [md|e]; [|discriminate].
    assert (Hlen : length (slice_to 500 text) <= 500) by apply firstn_le_length.
    remember (slice_to 500 text) as pv eqn:Hpv.
    assert (G : (df', @Ok outcome (Error msg (Some preview))) =
                (df, Ok (Error JournalNotRecognised (Some pv))) ->
                msg = JournalNotRecognised /\ length preview <= 500 /\
                exists text0, Ok text = Ok text0 /\ preview = slice_to 500 text0).
    { intro E. injection E as _ -> ->. split; [reflexivity|]. split.
      - exact Hlen.
      - exists text. split; [reflexivity | exact Hpv]. }
    destruct (Extractor.extract_journal_name text md) as [name|];
      [|apply G; symmetry; exact P].
    destruct (negb (truthy name)); [apply G; symmetry; exact P|].
    destruct (get_impact_factor name df default_threshold) as [d [[[n f|n f sc]|]|e]];
      simpl in P; discriminate.
Qed.

(** A PDF whose text is read and whose metadata cannot be. *)
Definition damaged_pdf : document :=
  Doc (s "papers/damaged.pdf") (s "damaged.pdf")
      (Ok (s "Journal: Nature Physics")) (Raise (OtherError (s "EOF marker not found"))).

Lemma read_failure_outcome_witness :
  read_error damaged_pdf (OtherError (s "EOF marker not found")) /\
  process_pdf no_table_file damaged_pdf (Some three_journals)
    = (Some three_journals,
       Ok (Error (ReadFailed (OtherError (s "EOF marker not found"))) None)).
Proof.
  assert (R : read_error damaged_pdf (OtherError (s "EOF marker not found"))).
  { right. exists (s "Journal: Nature Physics"). split; reflexivity. }
  split; [exact R|].
  exact (proj1 (read_failure_outcome no_table_file damaged_pdf three_journals)
           (OtherError (s "EOF marker not found")) R).
Defined.

(** C9 fails as stated: the text of [damaged_pdf] was obtained before the
    failure, and the error record has no preview of it. *)
Lemma read_failure_has_no_preview :
  extract_text_from_pdf damaged_pdf = Ok (s "Journal: Nature Physics") /\
  extract_metadata damaged_pdf = Raise (OtherError (s "EOF marker not found")) /\
  snd (process_pdf no_table_file damaged_pdf (Some three_journals))
    = Ok (Error (ReadFailed (OtherError (s "EOF marker not found"))) None).
Proof. repeat split. Qed.

Lemma has_blank_rows (df1 df2 : DataFrame) :
  rows df1 = rows df2 -> has_blank df1 = has_blank df2.
Proof. unfold has_blank. intros ->. reflexivity. Qed.

(** The outcome of every document of a batch, one line per document in
    order: on a table with at least one row and no blank name cell the batch
    returns its report, each line holds what processing that document alone
    gives, and a document that cannot be read gets an error line while the
    ones after it are processed. *)
Lemma process_all_isolated
    (sheet : excel_sheet) (pdf_files : list document) (df : DataFrame) :
  rows df <> [] -> has_blank df = false ->
  exists df' batch_results,
    process_all sheet pdf_files df = (df', Ok batch_results) /\
    rows df' = rows df /\
    Forall2 (fun doc line =>
               line_path line = file_path doc /\
               line_name line = file_name doc /\
               snd (process_with doc df) = Ok (line_outcome line))
            pdf_files batch_results.
Proof.
  intros Hne B. revert df Hne B.
  induction pdf_files as [|doc rest IH]; intros df Hne B; simpl.
  - exists df, []. repeat split. constructor.
  - destruct (@process_with_returns doc df Hne B) as [o Ho].
    pose proof (process_with_rows doc df) as Hr.
    destruct (process_with doc df) as [df1 r] eqn:P. simpl in Ho, Hr.
    subst r.
    destruct (IH df1) as (df2 & lines & E & Hr2 & F);
      [congruence | rewrite (has_blank_rows _ _ Hr); exact B |].
    rewrite E. exists df2, (Line (file_path doc) (file_name doc) o :: lines).
    split; [reflexivity|]. split; [congruence|].
    constructor.
    + repeat split. rewrite P. reflexivity.
    + eapply Forall2_impl; [|exact F].
      intros d l (H1 & H2 & H3). repeat split; trivial.
      rewrite <- H3. apply process_with_rows_only. congruence.
Qed.

(** A document that cannot be read adds its error line to the report and
    changes nothing else: the documents after it are processed as they would
    be without it, on every table. *)
Lemma read_error_is_isolated
    (sheet : excel_sheet) (doc : document) (rest : list document)
    (df : DataFrame) (e : exception) :
  read_error doc e ->
  process_all sheet (doc :: rest) df =
    match process_all sheet rest df with
    | (df', Ok batch_results) =>
        (df', Ok (Line (file_path doc) (file_name doc)
                    (Error (ReadFailed e) None) :: batch_results))
    | (df', Raise x) => (df', Raise x)
    end.
Proof.
  intro H. cbn [process_all]. unfold process_pdf.
  rewrite (process_with_read_error doc df e H). reflexivity.
Qed.

(** One line of the report for one document: its path and name, the outcome
    that processing the document alone gives, and an error record if the
    document cannot be read. *)
Definition line_for (df : DataFrame) (doc : document) (line : report_line) : Prop :=
  line_path line = file_path doc /\
  line_name line = file_name doc /\
  snd (process_with doc df) = Ok (line_outcome line) /\
  (forall e, read_error doc e -> line_outcome line = Error (ReadFailed e) None).

(** Batch isolation on a table with at least one row and no blank name
    cell: the batch returns a report with exactly one line per document, in
    order, each holding that document's own outcome; a document that cannot
    be read gets an error line, and the documents after it are processed all
    the same. *)
Lemma batch_isolated_on_nonempty_table
    (sheet : excel_sheet) (pdf_files : list document) (df : DataFrame) :
  rows df <> [] -> has_blank df = false ->
  exists df' batch_results,
    batch_process_pdfs (Ok pdf_files) sheet (Some df)
      = (Some df', Ok batch_results) /\
    rows df' = rows df /\
    Forall2 (line_for df) pdf_files batch_results.
Proof.
  intros Hne B. unfold batch_process_pdfs.
  destruct pdf_files as [|doc rest].
  - exists df, []. repeat split. constructor.
  - cbn [length Nat.eqb].
    destruct (process_all_isolated sheet (doc :: rest) df Hne B)
      as (df' & lines & E & Hr & F).
    rewrite E. exists df', lines. split; [reflexivity|]. split; [exact Hr|].
    eapply Forall2_impl; [|exact F].
    intros d l (H1 & H2 & H3). repeat split; trivial.
    intros e He. rewrite (process_with_read_error d df e He) in H3.
    cbn [snd] in H3. injection H3 as <-. reflexivity.
Qed.

(** A PDF that reads well and whose subject names a journal. *)
Definition named_pdf : document :=
  Doc (s "papers/letter.pdf") (s "letter.pdf")
      (Ok (s "A letter")) (Ok [(s "/Subject", s "Nature, 2023")]).

(** The table of a spreadsheet that has its header and no rows. *)
Definition empty_table : DataFrame := table_of [].

(** C8 at an empty table: [damaged_pdf] cannot be read and alone gets its
    error record, [named_pdf] after it names a journal, and the lookup of
    that name raises from [idxmax]; nothing catches it, so the batch raises
    and returns no report. *)
Theorem batch_aborts_on_empty_table :
  process_pdf no_table_file damaged_pdf (Some empty_table)
    = (Some empty_table,
       Ok (Error (ReadFailed (OtherError (s "EOF marker not found"))) None)) /\
  Extractor.extract_journal_name (s "A letter") [(s "/Subject", s "Nature, 2023")]
    = Some (s "Nature") /\
  batch_process_pdfs (Ok [damaged_pdf; named_pdf]) no_table_file (Some empty_table)
    = (Some (Frame [] (Some [])), Raise ValueError).
Proof. repeat split; vm_compute; reflexivity. Qed.

End PipelineClaims.

(** ** The matcher *)

Section RegexFacts.
Import PyStr.
Import Re.

(** [c'] is [c] moved over the text [w]. *)
Definition reach (c : cursor) (w : pystr) (c' : cursor) : Prop :=
  after c = w ++ after c' /\ before c' = rev w ++ before c.

Lemma reach_refl (c : cursor) : reach c [] c.
Proof. split; reflexivity. Qed.

Lemma reach_trans (c1 c2 c3 : cursor) (w1 w2 : pystr) :
  reach c1 w1 c2 -> reach c2 w2 c3 -> reach c1 (w1 ++ w2) c3.
Proof.
  intros [A1 B1] [A2 B2]. split.
  - rewrite A1, A2. apply app_assoc.
  - rewrite B2, B1, rev_app_distr. apply app_assoc.
Qed.

Lemma advance_spec (n : nat) (c : cursor) :
  n <= length (after c) ->
  advance n c =
    Cursor (rev (firstn n (after c)) ++ before c) (skipn n (after c)) (g1 c).
Proof.
  revert c. induction n as [|n IH]; intros [bf af g] H; cbn [after before g1] in *.
  - reflexivity.
  - destruct af as [|a t]; [simpl in H; lia|].
    cbn [advance step after before g1]. rewrite IH by (simpl in *; lia).
    cbn [after before g1 firstn skipn rev]. rewrite <- app_assoc. reflexivity.
Qed.

Lemma run_length_le (p : ascii -> bool) (hi : option nat) (x : pystr) :
  run_length p hi x <= length x.
Proof.
  revert hi. induction x as [|a t IH]; intro hi.
  - destruct hi as [[|h]|]; simpl; lia.
  - destruct hi as [[|h]|]; simpl; try lia;
      destruct (p a); simpl; try lia;
      match goal with |- S (run_length _ ?h' _) <= _ => specialize (IH h') end; lia.
Qed.

Lemma advance_reach (n : nat) (c : cursor) :
  n <= length (after c) ->
  exists w, reach c w (advance n c) /\ length w = n /\ g1 (advance n c) = g1 c.
Proof.
  intro H. rewrite advance_spec by assumption.
  exists (firstn n (after c)). split; [split|split]; cbn [after before g1].
  - symmetry. apply firstn_skipn.
  - reflexivity.
  - apply firstn_length_le. assumption.
  - reflexivity.
Qed.

Lemma in_counts_up (k lo n : nat) : In k (counts_up lo n) -> lo <= k <= n.
Proof. unfold counts_up. intro H. apply in_seq in H. lia. Qed.

(** A repetition moves over between [lo] and [run_length] characters. *)
Lemma run_Rep (g : bool) (p : ascii -> bool) (lo : nat) (hi : option nat)
    (c c' : cursor) :
  In c' (run (Rep g p lo hi) c) ->
  exists w, reach c w c' /\ lo <= length w /\ g1 c' = g1 c.
Proof.
  cbn [run]. intro H. apply in_map_iff in H. destruct H as (k & <- & Hk).
  assert (Hk' : In k (counts_up lo (run_length p hi (after c))))
    by (destruct g; [apply in_rev|]; assumption).
  apply in_counts_up in Hk'.
  pose proof (run_length_le p hi (after c)) as L.
  destruct (@advance_reach k c ltac:(lia)) as (w & R & Lw & G).
  exists w. repeat split; try apply R; try assumption. lia.
Qed.

Lemma run_Cls (p : ascii -> bool) (c c' : cursor) :
  In c' (run (Cls p) c) ->
  exists a, p a = true /\ reach c [a] c' /\ g1 c' = g1 c.
Proof.
  cbn [run]. destruct c as [bf [|a t] g]; cbn [after]; [intros []|].
  destruct (p a) eqn:E; [|intros []].
  intros [<-|[]]. exists a. repeat split; trivial.
Qed.

Lemma run_Seq (r1 r2 : regex) (c c' : cursor) :
  In c' (run (Seq r1 r2) c) ->
  exists c1, In c1 (run r1 c) /\ In c' (run r2 c1).
Proof. cbn [run]. intro H. apply in_flat_map in H. exact H. Qed.

Lemma run_reach (r : regex) (c c' : cursor) :
  In c' (run r c) -> exists w, reach c w c'.
Proof.
  revert c c'. induction r as [p|g p lo hi|r1 IH1 r2 IH2|r1 IH1 r2 IH2|r0 IH| | | |];
    intros c c' H.
  - apply run_Cls in H. destruct H as (a & _ & R & _). eauto.
  - apply run_Rep in H. destruct H as (w & R & _). eauto.
  - apply run_Seq in H. destruct H as (c1 & H1 & H2).
    destruct (IH1 _ _ H1) as [w1 R1]. destruct (IH2 _ _ H2) as [w2 R2].
    exists (w1 ++ w2). eapply reach_trans; eassumption.
  - cbn [run] in H. apply in_app_or in H. destruct H; eauto.
  - cbn [run] in H. apply in_map_iff in H. destruct H as (c0 & <- & H0).
    destruct (IH _ _ H0) as [w R]. exists w. exact R.
  - cbn [run] in H. destruct (before c); [|destruct H].
    destruct H as [<-|[]]. exists []. apply reach_refl.
  - cbn [run] in H. destruct (at_end c); [|destruct H].
    destruct H as [<-|[]]. exists []. apply reach_refl.
  - cbn [run] in H. destruct (at_word_boundary c); [|destruct H].
    destruct H as [<-|[]]. exists []. apply reach_refl.
  - destruct H as [<-|[]]. exists []. apply reach_refl.
Qed.

(** Patterns without a group. *)
Fixpoint group_free (r : regex) : bool :=
  match r with
  | Seq r1 r2 | Alt r1 r2 => group_free r1 && group_free r2
  | Grp _ => false
  | _ => true
  end.

Lemma run_group_free (r : regex) (c c' : cursor) :
  group_free r = true -> In c' (run r c) -> g1 c' = g1 c.
Proof.
  revert c c'. induction r as [p|g p lo hi|r1 IH1 r2 IH2|r1 IH1 r2 IH2|r0 IH| | | |];
    intros c c' F H; cbn [group_free] in F;
    try (apply andb_prop in F; destruct F as [F1 F2]).
  - apply run_Cls in H. destruct H as (a & _ & _ & G). exact G.
  - apply run_Rep in H. destruct H as (w & _ & _ & G). exact G.
  - apply run_Seq in H. destruct H as (c1 & H1 & H2).
    rewrite (IH2 _ _ F2 H2). eauto.
  - cbn [run] in H. apply in_app_or in H. destruct H; eauto.
  - discriminate.
  - cbn [run] in H. destruct (before c); [|destruct H].
    destruct H as [<-|[]]. reflexivity.
  - cbn [run] in H. destruct (at_end c); [|destruct H].
    destruct H as [<-|[]]. reflexivity.
  - cbn [run] in H. destruct (at_word_boundary c); [|destruct H].
    destruct H as [<-|[]]. reflexivity.
  - destruct H as [<-|[]]. reflexivity.
Qed.

(** The group captures the text its pattern moved over. *)
Lemma run_Grp (r : regex) (c c' : cursor) :
  In c' (run (Grp r) c) ->
  exists c0 w, In c0 (run r c) /\ reach c w c0 /\ g1 c' = Some w.
Proof.
  cbn [run]. intro H. apply in_map_iff in H. destruct H as (c0 & <- & H0).
  destruct (run_reach _ _ _ H0) as [w R]. exists c0, w.
  split; [assumption|]. split; [assumption|]. cbn [g1].
  destruct R as [A _]. rewrite A, length_app.
  replace (length w + length (after c0) - length (after c0)) with (length w) by lia.
  rewrite firstn_app, Nat.sub_diag, firstn_all. cbn [firstn].
  rewrite app_nil_r. reflexivity.
Qed.

(** A search that succeeds found its match at the cursor or at a later
    position. *)
Lemma search_from_found (r : regex) (n : nat) (c : cursor) (m : rmatch) :
  search_from r n c = Some m ->
  exists c0 w, reach c w c0 /\ In (m_end m) (run r c0) /\
               m_start m = length (before c0).
Proof.
  revert c. induction n as [|n IH]; intros c H; cbn [search_from] in H;
    [discriminate|].
  destruct (run r c) as [|e l] eqn:E.
  - destruct c as [bf [|a t] g]; cbn [step after] in H; [discriminate|].
    destruct (IH _ H) as (c0 & w & R & I & S0).
    exists c0, (a :: w). split; [|split; assumption].
    destruct R as [A B]. cbn [after before] in *. split.
    + rewrite A. reflexivity.
    + rewrite B. cbn [rev]. rewrite <- app_assoc. reflexivity.
  - injection H as <-. exists c, []. split; [apply reach_refl|].
    split; [|reflexivity]. cbn [m_end]. rewrite E. left. reflexivity.
Qed.

(** A pattern that starts with [^] matches at the start of the text only. *)
Lemma search_from_Bol_none (r : regex) (n : nat) (c : cursor) :
  before c <> [] -> search_from (Seq Bol r) n c = None.
Proof.
  revert c. induction n as [|n IH]; intros [bf af g] H; [reflexivity|].
  cbn [before] in H. cbn [search_from run before].
  destruct bf as [|b bf']; [congruence|]. cbn [flat_map].
  destruct af as [|a t]; cbn [step after before g1]; [reflexivity|].
  apply IH. discriminate.
Qed.

End RegexFacts.

(** ** The Journal Name Extractor *)

(** Take the first part of a sequence off a match. *)
Ltac split_seq H c1 H1 :=
  apply run_Seq in H; destruct H as (c1 & H1 & H).

Section ExtractorFacts.
Import PyStr.
Import Re.
Import Extractor.

Lemma lstrip_head (x : pystr) (c : ascii) (t : pystr) :
  lstrip x = c :: t -> isspace c = false.
Proof.
  induction x as [|a x IH]; simpl; [discriminate|].
  destruct (isspace a) eqn:E; [exact IH|].
  intro H. injection H as <- _. exact E.
Qed.

Lemma lstrip_keeps_last (l : pystr) (c : ascii) :
  isspace c = false -> exists l', lstrip (l ++ [c]) = l' ++ [c].
Proof.
  intro H. induction l as [|a l IH]; simpl.
  - rewrite H. exists []. reflexivity.
  - destruct (isspace a); [exact IH|]. exists (a :: l). reflexivity.
Qed.

(** Stripping keeps a first character that is not white space. *)
Lemma strip_keeps_head (c : ascii) (t : pystr) :
  isspace c = false -> exists t', strip (c :: t) = c :: t'.
Proof.
  intro H. unfold strip, rstrip. cbn [lstrip]. rewrite H. cbn [rev].
  destruct (lstrip_keeps_last (rev t) c H) as [l' ->].
  rewrite rev_app_distr. exists (rev l'). reflexivity.
Qed.

Lemma strip_head (x : pystr) (c : ascii) (t : pystr) :
  strip x = c :: t -> isspace c = false.
Proof.
  unfold strip. destruct (lstrip x) as [|d u] eqn:E; [discriminate|].
  pose proof (lstrip_head _ _ _ E) as Hd.
  destruct (strip_keeps_head d u Hd) as [t' H'].
  unfold strip in H'. cbn [lstrip] in H'. rewrite Hd in H'. rewrite H'.
  intro H. injection H as <- _. exact Hd.
Qed.

Lemma truthy_nonempty (x : pystr) : truthy x = true <-> x <> [].
Proof. destruct x; simpl; split; congruence. Qed.

(** The characters that [re.sub(r'^[^\w\s]+', '', x)] removes. *)
Fixpoint drop_punctuation (x : pystr) : pystr :=
  match x with
  | c :: t => if punct_char c then drop_punctuation t else x
  | [] => []
  end.

Lemma skipn_run_length (x : pystr) :
  skipn (run_length punct_char None x) x = drop_punctuation x.
Proof.
  induction x as [|a t IH]; [reflexivity|].
  cbn [run_length option_map drop_punctuation].
  destruct (punct_char a); [exact IH | reflexivity].
Qed.

Lemma rev_counts_up_head (n : nat) :
  exists l, rev (counts_up 1 (S n)) = S n :: l.
Proof.
  unfold counts_up. replace (S (S n) - 1) with (S n) by lia.
  rewrite seq_S, rev_app_distr. eexists. reflexivity.
Qed.

(** Removing the pattern [^[^\w\s]+] drops the leading punctuation. *)
Lemma sub_empty_re_prefix (x : pystr) :
  sub_empty re_prefix x = drop_punctuation x.
Proof.
  rewrite <- skipn_run_length.
  unfold sub_empty, re_prefix, plus.
  cbn [sub_from search_from run start before after flat_map].
  rewrite app_nil_r.
  pose proof (run_length_le punct_char None x) as L.
  destruct (run_length punct_char None x) as [|n] eqn:E.
  - cbn [counts_up Nat.sub seq rev map skipn].
    destruct x as [|a t]; cbn [start step after before g1 length]; [reflexivity|].
    rewrite search_from_Bol_none by discriminate. reflexivity.
  - destruct (rev_counts_up_head n) as [l ->]. cbn [map m_end m_start].
    rewrite advance_spec by (unfold start; cbn [after]; lia).
    unfold start. cbn [after before g1 length Nat.sub firstn app].
    rewrite app_nil_r, length_skipn.
    destruct (length x - S n <? length x) eqn:Lt;
      [|apply Nat.ltb_ge in Lt; lia].
    destruct (length x) as [|len] eqn:Len; [lia|].
    cbn [sub_from after before length].
    rewrite search_from_Bol_none; [reflexivity|].
    cbn [before]. destruct x as [|a t]; [discriminate|].
    cbn [firstn rev]. intro H. apply app_eq_nil in H. destruct H; discriminate.
Qed.

Lemma alpha_not_punct (c : ascii) : isalpha c = true -> punct_char c = false.
Proof. unfold punct_char, isword. intros ->. reflexivity. Qed.

Lemma drop_punctuation_nonempty (x : pystr) :
  any_alpha x = true -> drop_punctuation x <> [].
Proof.
  unfold any_alpha. induction x as [|a t IH]; simpl; [discriminate|].
  destruct (isalpha a) eqn:E.
  - rewrite (alpha_not_punct _ E). discriminate.
  - simpl. destruct (punct_char a); [exact IH | discriminate].
Qed.

Ltac decide_codes :=
  repeat match goal with
         | |- context [(?a <=? ?b)%N] => destruct (N.leb_spec a b)
         | |- context [(?a =? ?b)%N] => destruct (N.eqb_spec a b)
         end;
  simpl; try reflexivity; try discriminate; try lia.

Lemma upper_not_space (c : ascii) : upper_az c = true -> isspace c = false.
Proof.
  unfold upper_az, isspace, between, is_code. intro H.
  apply andb_prop in H. destruct H as [H1 H2].
  apply N.leb_le in H1, H2. decide_codes.
Qed.

(** A pattern whose every match starts by moving over a character of class
    [p]. *)
Definition starts_with (p : ascii -> bool) (r : regex) : Prop :=
  forall c c' w, In c' (run r c) -> reach c w c' ->
                 exists a w', w = a :: w' /\ p a = true.

Lemma reach_same_text (c c' : cursor) (w w' : pystr) :
  reach c w c' -> reach c w' c' -> w = w'.
Proof.
  intros [A _] [A' _]. rewrite A in A'.
  apply app_inv_tail in A'. exact A'.
Qed.

Lemma starts_with_Cls (p : ascii -> bool) (r : regex) :
  starts_with p (Seq (Cls p) r).
Proof.
  intros c c' w H R. apply run_Seq in H. destruct H as (c1 & H1 & H2).
  apply run_Cls in H1. destruct H1 as (a & Pa & R1 & _).
  destruct (run_reach _ _ _ H2) as [w2 R2].
  pose proof (reach_trans _ _ _ _ _ R1 R2) as R'.
  rewrite (reach_same_text _ _ _ _ R R'). exists a, w2. split; [reflexivity | exact Pa].
Qed.

Lemma starts_with_Wb (p : ascii -> bool) (r : regex) :
  starts_with p r -> starts_with p (Seq Wb r).
Proof.
  intros S0 c c' w H R. apply run_Seq in H. destruct H as (c1 & H1 & H2).
  cbn [run] in H1. destruct (at_word_boundary c); [|destruct H1].
  destruct H1 as [<-|[]]. eapply S0; eassumption.
Qed.

(** What a group captures when its pattern starts with a character of [p]. *)
Lemma group_starts_with (p : ascii -> bool) (r : regex) (c c' : cursor) :
  starts_with p r -> In c' (run (Grp r) c) ->
  exists a w', g1 c' = Some (a :: w') /\ p a = true.
Proof.
  intros S0 H. apply run_Grp in H. destruct H as (c0 & w & H0 & R & G).
  destruct (S0 _ _ _ H0 R) as (a & w' & -> & Pa). eauto.
Qed.

Lemma starts_with_name_lazy :
  starts_with upper_az (Seq (Cls upper_az) (plus_lazy name_char)).
Proof. apply starts_with_Cls. Qed.

(** Group 1 of a match of each of the four text patterns starts with a
    capital letter. *)
Lemma patterns_group (r : regex) (c e : cursor) :
  In r patterns -> In e (run r c) ->
  exists a w, g1 e = Some (a :: w) /\ upper_az a = true.
Proof.
  intros [<-|[<-|[<-|[<-|[]]]]] H.
  - unfold re_published in H. cbn [seqs] in H.
    split_seq H c1 H1. split_seq H c2 H2. split_seq H c3 H3. split_seq H c4 H4.
    destruct (group_starts_with _ _ _ _ starts_with_name_lazy H4) as (a & w & G & Pa).
    exists a, w. split; [|exact Pa]. rewrite <- G.
    apply run_group_free with (r := Alt (lit newline)
             (Alt (lit ",") (Alt (lits "Vol") (exactly 4 isdecimal))));
      [reflexivity | exact H].
  - unfold re_vol in H. cbn [seqs] in H.
    split_seq H c1 H1.
    destruct (group_starts_with _ _ _ _ starts_with_name_lazy H1) as (a & w & G & Pa).
    exists a, w. split; [|exact Pa]. rewrite <- G.
    apply run_group_free with
      (r := seqs [plus isspace; lits "Vol."; star isspace; plus isdecimal]);
      [reflexivity | exact H].
  - unfold re_journal in H. cbn [seqs] in H.
    split_seq H c1 H1. split_seq H c2 H2.
    apply (group_starts_with _ _ _ _ (starts_with_Cls upper_az (plus name_char))) in H.
    exact H.
  - unfold re_copyright in H. cbn [seqs] in H.
    split_seq H c1 H1. split_seq H c2 H2. split_seq H c3 H3.
    destruct (group_starts_with _ _ _ _
                (starts_with_Wb _ _ (starts_with_Cls upper_az (plus_lazy name_char)))
                H3) as (a & w & G & Pa).
    exists a, w. split; [|exact Pa]. rewrite <- G.
    apply run_group_free with (r := Seq (plus isspace) (exactly 4 isdecimal));
      [reflexivity | exact H].
Qed.

Lemma first_pattern_nonempty (ps : list regex) (text j : pystr) :
  (forall r, In r ps -> In r patterns) ->
  first_pattern ps text = Some j -> j <> [].
Proof.
  induction ps as [|p ps IH]; intros Hps H; cbn [first_pattern] in H;
    [discriminate|].
  destruct (search p text) as [m|] eqn:E.
  - injection H as <-. unfold search in E.
    apply search_from_found in E. destruct E as (c0 & w & _ & I & _).
    destruct (patterns_group p c0 (m_end m)) as (a & w' & G & Pa);
      [apply Hps; left; reflexivity | exact I |].
    unfold group1. rewrite G.
    destruct (strip_keeps_head a w' (upper_not_space _ Pa)) as [t' ->].
    discriminate.
  - apply IH; [|exact H]. intros r Hr. apply Hps. right. exact Hr.
Qed.

End ExtractorFacts.

Section ExtractorClaims.
Import PyStr.
Import Re.
Import Extractor.

Lemma or_else_some {A : Type} (x y : option A) (v : A) :
  or_else x y = Some v -> x = Some v \/ (x = None /\ y = Some v).
Proof. destruct x; simpl; intro H; [left | right]; auto. Qed.

Lemma rule_comma_nonempty (subject j : pystr) :
  rule_comma subject = Some j -> j <> [].
Proof.
  unfold rule_comma. destruct (contains (s ",") subject); [|discriminate].
  destruct (truthy _ && any_alpha _) eqn:E; [|discriminate].
  apply andb_prop in E. destruct E as [_ E].
  intro H. injection H as <-. rewrite sub_empty_re_prefix.
  apply drop_punctuation_nonempty. exact E.
Qed.

Lemma rule_doi_nonempty (subject j : pystr) :
  rule_doi subject = Some j -> j <> [].
Proof.
  unfold rule_doi. destruct (contains _ _); [|discriminate].
  destruct (truthy _) eqn:E; [|discriminate].
  intro H. injection H as <-. apply truthy_nonempty. exact E.
Qed.

Lemma rule_trailing_nonempty (subject j : pystr) :
  rule_trailing subject = Some j -> j <> [].
Proof.
  unfold rule_trailing. destruct (truthy _ && _) eqn:E; [|discriminate].
  apply andb_prop in E. destruct E as [E _].
  intro H. injection H as <-. apply truthy_nonempty. exact E.
Qed.

(** Group 1 of a match of the year pattern is a prefix of the subject that
    is not empty. *)
Lemma re_year_group (subject : pystr) (m : rmatch) :
  search re_year subject = Some m ->
  exists a w t, subject = a :: t /\ group1 m = a :: w.
Proof.
  unfold search. intro H. apply search_from_found in H.
  destruct H as (c0 & w0 & R0 & H & _).
  unfold re_year in H. cbn [seqs] in H.
  split_seq H c1 H1. split_seq H c2 H2.
  cbn [run] in H1. destruct (before c0) eqn:B; [|destruct H1].
  destruct H1 as [<-|[]].
  destruct R0 as [A0 B0]. rewrite B in B0. cbn [start before after] in A0, B0.
  rewrite app_nil_r in B0. symmetry in B0.
  apply (f_equal (@rev ascii)) in B0. rewrite rev_involutive in B0.
  cbn [rev] in B0. subst w0. cbn [app] in A0.
  apply run_Grp in H2. destruct H2 as (c3 & w & H3 & R & G).
  apply run_Rep in H3. destruct H3 as (w' & R' & L & _).
  rewrite (reach_same_text _ _ _ _ R R') in *.
  assert (G' : g1 (m_end m) = Some w').
  { rewrite <- G.
    apply run_group_free with
      (r := seqs [plus isspace; Alt (lits "19") (lits "20"); exactly 2 isdecimal]);
      [reflexivity | exact H]. }
  unfold group1. rewrite G'.
  destruct w' as [|a w'']; [simpl in L; lia|].
  destruct R' as [A' _]. rewrite A0, A'.
  exists a, w'', (w'' ++ after c3). split; reflexivity.
Qed.

Lemma rule_year_nonempty (x j : pystr) :
  rule_year (strip x) = Some j -> j <> [].
Proof.
  unfold rule_year. destruct (search re_year (strip x)) as [m|] eqn:E;
    [|discriminate].
  intro H. injection H as <-.
  destruct (re_year_group _ _ E) as (a & w & t & Hs & ->).
  pose proof (strip_head _ _ _ Hs) as Ha.
  destruct (strip_keeps_head a w Ha) as [t' ->]. discriminate.
Qed.

Lemma extract_journal_from_subject_nonempty (subject j : pystr) :
  extract_journal_from_subject subject = Some j -> j <> [].
Proof.
  unfold extract_journal_from_subject.
  destruct (negb (truthy subject)); [discriminate|].
  intro H.
  apply or_else_some in H. destruct H as [H|[_ H]];
    [eapply rule_comma_nonempty; eassumption|].
  apply or_else_some in H. destruct H as [H|[_ H]];
    [eapply rule_doi_nonempty; eassumption|].
  apply or_else_some in H. destruct H as [H|[_ H]];
    [eapply rule_year_nonempty; eassumption|].
  eapply rule_trailing_nonempty; eassumption.
Qed.

Lemma extract_journal_name_nonempty (text : pystr) (md : metadata) (j : pystr) :
  extract_journal_name text md = Some j -> j <> [].
Proof.
  unfold extract_journal_name. intro H.
  apply or_else_some in H. destruct H as [H|[_ H]].
  - unfold from_subject in H.
    destruct (get _ md) as [subject|]; [|discriminate].
    destruct (truthy subject); [|discriminate].
    destruct (extract_journal_from_subject subject) as [j'|]; [|discriminate].
    destruct (truthy j') eqn:E; [|discriminate].
    injection H as <-. apply truthy_nonempty. exact E.
  - eapply first_pattern_nonempty; [|exact H]. auto.
Qed.

(** C10: the extractor never produces an empty name. Whatever
    [extract_journal_name] returns for a text and its metadata, and whatever
    [extract_journal_from_subject] returns for a subject, is a string with at
    least one character. *)
Theorem extracted_name_is_not_empty
    (text : pystr) (md : metadata) (subject j : pystr) :
  extract_journal_name text md = Some j \/
  extract_journal_from_subject subject = Some j ->
  j <> [].
Proof.
  intros [H|H].
  - eapply extract_journal_name_nonempty; eassumption.
  - eapply extract_journal_from_subject_nonempty; eassumption.
Qed.

Lemma extracted_name_is_not_empty_witness :
  extract_journal_name (s "Annals of Stuff  Vol. 12 (2020)") []
    = Some (s "Annals of Stuff") /\
  extract_journal_from_subject (s "Cell 2023") = Some (s "Cell") /\
  s "Annals of Stuff" <> [] /\ s "Cell" <> [].
Proof.
  assert (E1 : extract_journal_name (s "Annals of Stuff  Vol. 12 (2020)") []
               = Some (s "Annals of Stuff")) by (vm_compute; reflexivity).
  assert (E2 : extract_journal_from_subject (s "Cell 2023") = Some (s "Cell"))
    by (vm_compute; reflexivity).
  split; [exact E1|]. split; [exact E2|]. split.
  - exact (extracted_name_is_not_empty
             (s "Annals of Stuff  Vol. 12 (2020)") [] [] (s "Annals of Stuff")
             (or_introl E1)).
  - exact (extracted_name_is_not_empty [] [] (s "Cell 2023") (s "Cell")
             (or_intror E2)).
Defined.

(** What the sub-chain does with a subject that is not empty and whose
    stripped text contains a comma: the comma rule returns when the stripped
    text before the first comma contains an alphabetic character; when it
    contains none, the code goes on to the doi, year and trailing-strip
    rules. *)
Lemma extract_journal_from_subject_comma (subject : pystr) :
  subject <> [] ->
  contains (s ",") (strip subject) = true ->
  extract_journal_from_subject subject =
    if any_alpha (strip (PyStr.split_head "," (strip subject)))
    then Some (drop_punctuation (strip (PyStr.split_head "," (strip subject))))
    else or_else (rule_doi (strip subject))
           (or_else (rule_year (strip subject)) (rule_trailing (strip subject))).
Proof.
  intros Hne Hc. unfold extract_journal_from_subject.
  apply truthy_nonempty in Hne. rewrite Hne. cbn [negb].
  unfold rule_comma at 1. rewrite Hc.
  destruct (any_alpha (strip (PyStr.split_head "," (strip subject)))) eqn:E.
  - assert (T : truthy (strip (PyStr.split_head "," (strip subject))) = true).
    { destruct (strip (PyStr.split_head "," (strip subject))); [discriminate|].
      reflexivity. }
    rewrite T. cbn [andb or_else]. rewrite sub_empty_re_prefix. reflexivity.
  - rewrite andb_false_r. reflexivity.
Qed.

(** The comma rule decides alone when it accepts: for a subject whose
    stripped text contains a comma and has an alphabetic character before
    the first comma, the result is the stripped text before that comma
    without its leading punctuation, whatever the doi, year and
    trailing-strip rules would give. *)
Theorem comma_rule_accepts (subject : pystr) :
  subject <> [] ->
  contains (s ",") (strip subject) = true ->
  any_alpha (strip (PyStr.split_head "," (strip subject))) = true ->
  extract_journal_from_subject subject =
    Some (drop_punctuation (strip (PyStr.split_head "," (strip subject)))).
Proof.
  intros Hne Hc Ha. rewrite (extract_journal_from_subject_comma _ Hne Hc), Ha.
  reflexivity.
Qed.

Lemma comma_rule_accepts_witness :
  extract_journal_from_subject (s " ...Nature, 2023, doi:10.1038/xxx") =
    Some (drop_punctuation
            (strip (PyStr.split_head ","
                      (strip (s " ...Nature, 2023, doi:10.1038/xxx"))))).
Proof.
  apply (comma_rule_accepts (s " ...Nature, 2023, doi:10.1038/xxx")).
  - discriminate.
  - vm_compute. reflexivity.
  - vm_compute. reflexivity.
Defined.

(** C7 at subjects that contain a comma and have no alphabetic character
    before it: the comma rule does not accept, and the sub-chain does not
    return none. It goes on to the rules below, which the source introduces
    with "if there is no comma": for the first subject the doi rule returns a
    name, for the second one the trailing-strip rule returns the digits that
    the comma rule has just refused. *)
Theorem comma_rule_falls_through :
  contains (s ",") (strip (s "2023, Nature doi:10.1038/x")) = true /\
  any_alpha (strip (PyStr.split_head "," (strip (s "2023, Nature doi:10.1038/x")))) = false /\
  rule_doi (strip (s "2023, Nature doi:10.1038/x")) = Some (s "2023, Nature") /\
  extract_journal_from_subject (s "2023, Nature doi:10.1038/x")
    = Some (s "2023, Nature") /\
  contains (s ",") (strip (s "2023, 45")) = true /\
  any_alpha (strip (PyStr.split_head "," (strip (s "2023, 45")))) = false /\
  extract_journal_from_subject (s "2023, 45") = Some (s "2023,").
Proof. repeat split; vm_compute; reflexivity. Qed.

End ExtractorClaims.

(** ** The sequence matcher *)

Section MatcherBounds.
Import PyStr.
Import Difflib.

Variables a b : pystr.

(** A block that lies inside the ranges [alo..ahi) of [a] and [blo..bhi) of
    [b]. *)
Definition within (alo ahi blo bhi : nat) (x : block) : Prop :=
  alo <= fst (fst x) /\ fst (fst x) + size x <= ahi /\
  blo <= snd (fst x) /\ snd (fst x) + size x <= bhi.

(** Lengths that fit into [n] rows and into the columns from [blo] on. *)
Definition fitting (blo n : nat) (d : lengths) : Prop :=
  forall j, get d j <= n /\ get d j <= S j - blo.

Lemma get_pred_fitting (blo n : nat) (d : lengths) (j : nat) :
  fitting blo n d -> get_pred d j <= n /\ get_pred d j <= j - blo.
Proof.
  intro F. destruct j as [|j]; cbn [get_pred]; [lia|]. destruct (F j). lia.
Qed.

Lemma scan_row_within (alo ahi blo bhi i : nat) (d : lengths) (js : list nat) :
  alo <= i -> i < ahi -> fitting blo (i - alo) d ->
  forall (new : lengths) (best : block),
    fitting blo (S (i - alo)) new -> within alo ahi blo bhi best ->
    fitting blo (S (i - alo)) (fst (scan_row i blo bhi d js new best)) /\
    within alo ahi blo bhi (snd (scan_row i blo bhi d js new best)).
Proof.
  intros Hlo Hhi Fd. induction js as [|j js IH]; intros new best Fn W;
    cbn [scan_row]; [split; assumption|].
  destruct (j <? blo) eqn:E1; [apply IH; assumption|].
  destruct (bhi <=? j) eqn:E2; [split; assumption|].
  apply Nat.ltb_ge in E1. apply Nat.leb_gt in E2.
  destruct (get_pred_fitting blo (i - alo) d j Fd) as [P1 P2].
  apply IH.
  - intro j'. cbn [get]. destruct (j =? j') eqn:E; [|apply Fn].
    apply Nat.eqb_eq in E. subst j'. lia.
  - destruct (size best <? get_pred d j + 1); [|assumption].
    unfold within, size. cbn [fst snd]. lia.
Qed.

Lemma scan_rows_within (alo ahi blo bhi n : nat) :
  forall (i : nat) (d : lengths) (best : block),
    alo <= i -> i + n <= ahi -> fitting blo (i - alo) d ->
    within alo ahi blo bhi best ->
    within alo ahi blo bhi (scan_rows a b n i blo bhi d best).
Proof.
  induction n as [|n IH]; intros i d best Hlo Hhi Fd W; cbn [scan_rows];
    [assumption|].
  destruct (scan_row_within alo ahi blo bhi i d (b2j b (at_a a i))
              Hlo ltac:(lia) Fd [] best) as [F' W'].
  - intro j. cbn [get]. lia.
  - assumption.
  - destruct (scan_row i blo bhi d (b2j b (at_a a i)) [] best) as [new best'].
    cbn [fst snd] in F', W'. apply IH; try assumption; try lia.
    replace (S i - alo) with (S (i - alo)) by lia. assumption.
Qed.

Lemma extend_left_within (alo ahi blo bhi : nat) :
  forall besti bestj bestsize,
    within alo ahi blo bhi (besti, bestj, bestsize) ->
    within alo ahi blo bhi (extend_left a b alo blo besti bestj bestsize).
Proof.
  induction besti as [|i' IH]; intros bestj bestsize W; cbn [extend_left];
    [assumption|].
  destruct bestj as [|j']; [assumption|].
  destruct ((alo <? S i') && (blo <? S j') && Ascii.eqb (at_a a i') (at_b b j'))
    eqn:E; [|assumption].
  apply andb_prop in E. destruct E as [E _].
  apply andb_prop in E. destruct E as [E1 E2].
  apply Nat.ltb_lt in E1, E2. apply IH.
  unfold within, size in *. cbn [fst snd] in *. lia.
Qed.

Lemma extend_right_within (alo ahi blo bhi besti bestj n : nat) :
  forall bestsize,
    n <= ahi - (besti + bestsize) ->
    within alo ahi blo bhi (besti, bestj, bestsize) ->
    within alo ahi blo bhi (extend_right a b n bhi besti bestj bestsize).
Proof.
  induction n as [|n IH]; intros bestsize Hn W; cbn [extend_right];
    [assumption|].
  destruct ((bestj + bestsize <? bhi) && _) eqn:E; [|assumption].
  apply andb_prop in E. destruct E as [E _]. apply Nat.ltb_lt in E.
  apply IH; [lia|]. unfold within, size in *. cbn [fst snd] in *. lia.
Qed.

(** The block that [find_longest_match] returns lies inside the ranges it was
    asked about. *)
Lemma find_longest_match_within (alo ahi blo bhi : nat) :
  alo <= ahi -> blo <= bhi ->
  within alo ahi blo bhi (find_longest_match a b alo ahi blo bhi).
Proof.
  intros Ha Hb. unfold find_longest_match.
  pose proof (scan_rows_within alo ahi blo bhi (ahi - alo) alo [] (alo, blo, 0)
                (le_n _) ltac:(lia)) as W.
  destruct (scan_rows a b (ahi - alo) alo blo bhi [] (alo, blo, 0))
    as [[besti bestj] bestsize].
  assert (W1 : within alo ahi blo bhi (besti, bestj, bestsize)).
  { apply W.
    - intro j. cbn [get]. lia.
    - unfold within, size. cbn [fst snd]. lia. }
  pose proof (extend_left_within alo ahi blo bhi besti bestj bestsize W1) as W2.
  destruct (extend_left a b alo blo besti bestj bestsize) as [[i j] k].
  apply extend_right_within; [lia | assumption].
Qed.

Definition total_size (bs : list block) : nat := list_sum (map size bs).

Lemma total_size_app (l r : list block) (x : block) :
  total_size (l ++ x :: r) = total_size l + size x + total_size r.
Proof.
  unfold total_size. rewrite map_app, list_sum_app. simpl. lia.
Qed.

(** With fuel beyond the length of the range of [a], the blocks are found,
    and together they are no longer than either range. *)
Lemma blocks_in_total (fuel : nat) :
  forall alo ahi blo bhi,
    alo <= ahi -> blo <= bhi -> ahi - alo < fuel ->
    exists bs,
      blocks_in a b fuel alo ahi blo bhi = Some bs /\
      total_size bs <= ahi - alo /\ total_size bs <= bhi - blo.
Proof.
  induction fuel as [|fuel IH]; intros alo ahi blo bhi Ha Hb Hf; [lia|].
  cbn [blocks_in].
  pose proof (find_longest_match_within alo ahi blo bhi Ha Hb) as W.
  destruct (find_longest_match a b alo ahi blo bhi) as [[i j] k].
  unfold within, size in W. cbn [fst snd] in W.
  destruct (k =? 0) eqn:Ek.
  - exists []. unfold total_size. simpl. repeat split; lia.
  - apply Nat.eqb_neq in Ek.
    assert (L : exists l,
               (if (alo <? i) && (blo <? j)
                then blocks_in a b fuel alo i blo j else Some []) = Some l /\
               total_size l <= i - alo /\ total_size l <= j - blo).
    { destruct ((alo <? i) && (blo <? j));
        [apply IH; lia | exists []; unfold total_size; simpl; repeat split; lia]. }
    assert (R : exists r,
               (if (i + k <? ahi) && (j + k <? bhi)
                then blocks_in a b fuel (i + k) ahi (j + k) bhi else Some [])
               = Some r /\
               total_size r <= ahi - (i + k) /\ total_size r <= bhi - (j + k)).
    { destruct ((i + k <? ahi) && (j + k <? bhi));
        [apply IH; lia | exists []; unfold total_size; simpl; repeat split; lia]. }
    destruct L as (l & -> & L1 & L2). destruct R as (r & -> & R1 & R2).
    exists (l ++ (i, j, k) :: r). split; [reflexivity|].
    rewrite total_size_app. unfold size. cbn [snd]. lia.
Qed.

(** [get_matching_blocks] returns: the fuel it is given is enough. *)
Lemma get_matching_blocks_returns :
  exists bs,
    get_matching_blocks a b = Some bs /\
    matches a b = total_size bs /\
    total_size bs <= length a /\ total_size bs <= length b.
Proof.
  destruct (blocks_in_total (S (length a)) 0 (length a) 0 (length b))
    as (bs & E & L1 & L2); try lia.
  exists bs. unfold matches, get_matching_blocks. rewrite E.
  repeat split; try reflexivity; lia.
Qed.

Lemma calculate_ratio_range (m len : nat) :
  2 * m <= len -> (0 <= calculate_ratio m len <= 1)%Q.
Proof.
  intro H. unfold calculate_ratio. destruct (len =? 0) eqn:E.
  - split; [discriminate | apply Qle_refl].
  - apply Nat.eqb_neq in E. unfold Qle. cbn [Qnum Qden]. split.
    + lia.
    + rewrite Z.mul_1_r, Z.mul_1_l.
      replace (Z.pos (Pos.of_nat len)) with (Z.of_nat len)
        by (destruct len; [lia | rewrite <- Pos.of_nat_succ; lia]).
      lia.
Qed.

(** The ratio lies between 0 and 1. *)
Lemma ratio_range : (0 <= ratio a b <= 1)%Q.
Proof.
  unfold ratio. apply calculate_ratio_range.
  destruct get_matching_blocks_returns as (bs & _ & -> & L1 & L2). lia.
Qed.

End MatcherBounds.

Section MatcherIdentity.
Import PyStr.
Import Difflib.

(** The matcher run on a string [x] and itself. *)
Variable x : pystr.

(** Length of the longest common run of elements that are not popular, ending
    with the [i]-th element on one side and the [j]-th on the other. *)
Fixpoint common (i j : nat) : nat :=
  match i, j with
  | S i', S j' =>
      if Ascii.eqb (at_a x i') (at_b x j') && negb (popular x (at_a x i'))
         && (i' <? length x) && (j' <? length x)
      then S (common i' j') else 0
  | _, _ => 0
  end.

Lemma common_0_r (i : nat) : common i 0 = 0.
Proof. destruct i; reflexivity. Qed.

Lemma common_sym (i j : nat) : common i j = common j i.
Proof.
  revert j. induction i as [|i IH]; intro j; [symmetry; apply common_0_r|].
  destruct j as [|j]; [reflexivity|]. cbn [common]. unfold at_a, at_b.
  rewrite (Ascii.eqb_sym (nth i x zero) (nth j x zero)).
  destruct (Ascii.eqb (nth j x zero) (nth i x zero)) eqn:E;
    [|reflexivity].
  apply Ascii.eqb_eq in E. rewrite E, IH.
  destruct (popular x (nth i x zero)), (i <? length x), (j <? length x);
    reflexivity.
Qed.

Lemma common_diagonal (i j : nat) : common i j <= common i i.
Proof.
  revert j. induction i as [|i IH]; intro j; [reflexivity|].
  destruct j as [|j]; [cbn [common]; lia|]. cbn [common].
  destruct (Ascii.eqb (at_a x i) (at_b x j)); [|cbn [andb]; lia].
  destruct (popular x (at_a x i)); [cbn [andb negb]; lia|].
  destruct (i <? length x); [|cbn [andb negb]; lia].
  destruct (j <? length x); [|cbn [andb negb]; lia].
  unfold at_a, at_b. rewrite Ascii.eqb_refl. cbn [andb negb].
  specialize (IH j). lia.
Qed.

Lemma common_beyond (i j : nat) : length x <= j -> common i (S j) = 0.
Proof.
  intro H. destruct i as [|i]; [reflexivity|]. cbn [common].
  destruct (j <? length x) eqn:E; [apply Nat.ltb_lt in E; lia|].
  rewrite andb_false_r. reflexivity.
Qed.

Lemma common_popular (i j : nat) :
  popular x (at_a x i) = true -> common (S i) j = 0.
Proof.
  intro H. destruct j as [|j]; [reflexivity|]. cbn [common]. rewrite H.
  cbn [negb]. rewrite andb_false_r. reflexivity.
Qed.

(** A block on the diagonal. *)
Definition diagonal (best : block) : Prop := fst (fst best) = snd (fst best).

(** The length found so far is at least every common run that ends in one of
    the first [i] rows. *)
Definition covers (i : nat) (best : block) : Prop :=
  forall i' j, i' <= i -> common i' j <= size best.

Lemma get_pred_common (i : nat) (d : lengths) (j : nat) :
  (forall j', get d j' = common i (S j')) -> get_pred d j = common i j.
Proof.
  intro H. destruct j as [|j]; cbn [get_pred];
    [symmetry; apply common_0_r | apply H].
Qed.

(** One row of the scan, column by column: the positions of [a[i]] in the
    rest [l] of the string, after the columns [pre]. *)
Lemma scan_row_diagonal (i : nat) (d : lengths) :
  i < length x ->
  popular x (at_a x i) = false ->
  (forall j, get d j = common i (S j)) ->
  forall (l pre : pystr) (new : lengths) (best : block),
    x = pre ++ l ->
    (forall j, get new j = if j <? length pre then common (S i) (S j) else 0) ->
    diagonal best -> covers i best ->
    (forall j, j < length pre -> common (S i) (S j) <= size best) ->
    let r := scan_row i 0 (length x) d
               (positions (at_a x i) (length pre) l) new best in
    (forall j, get (fst r) j = common (S i) (S j)) /\
    diagonal (snd r) /\ covers (S i) (snd r).
Proof.
  intros Hi Hpop Hd. induction l as [|c l IH];
    intros pre new best Hx Hnew Hdiag Hcov Hrow; cbv zeta.
  - cbn [positions scan_row fst snd]. rewrite app_nil_r in Hx. subst pre.
    split; [|split; [assumption|]].
    + intro j. rewrite Hnew. destruct (j <? length x) eqn:E; [reflexivity|].
      apply Nat.ltb_ge in E. symmetry. apply common_beyond. assumption.
    + intros i' j Hi'. destruct (Nat.eq_dec i' (S i)) as [->|Ne];
        [|apply Hcov; lia].
      destruct j as [|j]; [cbn [common]; lia|].
      destruct (Nat.lt_ge_cases j (length x)) as [Lt|Ge];
        [apply Hrow; assumption | rewrite common_beyond by assumption; lia].
  - assert (Hlen : length pre < length x)
      by (rewrite Hx, length_app; cbn [length]; lia).
    assert (Hc : at_b x (length pre) = c).
    { unfold at_b. rewrite Hx, app_nth2 by lia. rewrite Nat.sub_diag.
      reflexivity. }
    assert (Hx' : x = (pre ++ [c]) ++ l)
      by (rewrite <- app_assoc; exact Hx).
    assert (Hlen' : length (pre ++ [c]) = S (length pre))
      by (rewrite length_app; cbn [length]; lia).
    cbn [positions]. rewrite <- Hlen'.
    destruct (Ascii.eqb c (at_a x i)) eqn:E.
    + cbn [scan_row].
      replace (length pre <? 0) with false
        by (symmetry; apply Nat.ltb_ge; lia).
      destruct (length x <=? length pre) eqn:E2;
        [apply Nat.leb_le in E2; lia|].
      rewrite (get_pred_common i d (length pre) Hd).
      assert (Hk : common i (length pre) + 1 = common (S i) (S (length pre))).
      { cbn [common]. rewrite Hc, Ascii.eqb_sym, E, Hpop.
        destruct (i <? length x) eqn:E3; [|apply Nat.ltb_ge in E3; lia].
        destruct (length pre <? length x) eqn:E4;
          [|apply Nat.ltb_ge in E4; lia].
        cbn [andb negb]. lia. }
      rewrite Hk.
      specialize (IH (pre ++ [c])
                    ((length pre, common (S i) (S (length pre))) :: new)
                    (if size best <? common (S i) (S (length pre))
                     then (i + 1 - common (S i) (S (length pre)),
                           length pre + 1 - common (S i) (S (length pre)),
                           common (S i) (S (length pre)))
                     else best) Hx').
      cbv zeta in IH. apply IH; clear IH.
      * intro j. cbn [get]. rewrite Hlen'.
        destruct (length pre =? j) eqn:E5.
        -- apply Nat.eqb_eq in E5. subst j.
           destruct (length pre <? S (length pre)) eqn:E6;
             [reflexivity | apply Nat.ltb_ge in E6; lia].
        -- apply Nat.eqb_neq in E5. rewrite Hnew.
           destruct (j <? length pre) eqn:E6, (j <? S (length pre)) eqn:E7;
             try reflexivity;
             [apply Nat.ltb_lt in E6; apply Nat.ltb_ge in E7
             |apply Nat.ltb_ge in E6; apply Nat.ltb_lt in E7]; lia.
      * destruct (size best <? common (S i) (S (length pre))) eqn:E5;
          [|assumption].
        apply Nat.ltb_lt in E5. unfold diagonal. cbn [fst snd].
        destruct (Nat.lt_trichotomy (length pre) i) as [Lt|[Eq|Gt]].
        -- pose proof (Hcov (S (length pre)) (S i) ltac:(lia)) as C.
           rewrite common_sym in C. lia.
        -- rewrite Eq. reflexivity.
        -- pose proof (Hrow i Gt) as C.
           pose proof (common_diagonal (S i) (S (length pre))). lia.
      * intros i' j Hi'. pose proof (Hcov i' j Hi') as C.
        destruct (size best <? common (S i) (S (length pre))) eqn:E5;
          [|assumption].
        apply Nat.ltb_lt in E5. unfold size in *. cbn [snd]. lia.
      * intros j Hj. rewrite Hlen' in Hj.
        destruct (size best <? common (S i) (S (length pre))) eqn:E5;
          [apply Nat.ltb_lt in E5|apply Nat.ltb_ge in E5];
          unfold size in *; cbn [snd];
          (destruct (Nat.eq_dec j (length pre)) as [->|Ne];
           [lia | pose proof (Hrow j ltac:(lia)); lia]).
    + specialize (IH (pre ++ [c]) new best Hx').
      cbv zeta in IH.
      assert (Hz : common (S i) (S (length pre)) = 0).
      { cbn [common]. rewrite Hc, Ascii.eqb_sym, E. reflexivity. }
      apply IH; clear IH; try assumption.
      * intro j. rewrite Hlen', Hnew.
        destruct (j <? length pre) eqn:E6, (j <? S (length pre)) eqn:E7;
          try reflexivity;
          [apply Nat.ltb_lt in E6; apply Nat.ltb_ge in E7; lia|].
        apply Nat.ltb_ge in E6. apply Nat.ltb_lt in E7.
        replace j with (length pre) by lia. symmetry. exact Hz.
      * intros j Hj. rewrite Hlen' in Hj.
        destruct (Nat.eq_dec j (length pre)) as [->|Ne];
          [rewrite Hz; lia | apply Hrow; lia].
Qed.

Lemma scan_rows_diagonal (m : nat) :
  forall (i : nat) (d : lengths) (best : block),
    i + m = length x ->
    (forall j, get d j = common i (S j)) ->
    diagonal best -> covers i best ->
    diagonal (scan_rows x x m i 0 (length x) d best).
Proof.
  induction m as [|m IH]; intros i d best Hi Hd Hdiag Hcov; cbn [scan_rows];
    [assumption|].
  unfold b2j. destruct (popular x (at_a x i)) eqn:Hpop.
  - cbn [scan_row]. apply IH; try assumption; try lia.
    + intro j. cbn [get]. symmetry. apply common_popular. assumption.
    + intros i' j Hi'. destruct (Nat.eq_dec i' (S i)) as [->|Ne];
        [rewrite common_popular by assumption; lia | apply Hcov; lia].
  - pose proof (scan_row_diagonal i d ltac:(lia) Hpop Hd x [] [] best
                  eq_refl) as R.
    cbv zeta in R. cbn [length] in R.
    destruct (scan_row i 0 (length x) d (positions (at_a x i) 0 x) [] best)
      as [new best'].
    cbn [fst snd] in R. destruct R as (R1 & R2 & R3); try assumption.
    + intro j. reflexivity.
    + intros j Hj. lia.
    + apply IH; try assumption. lia.
Qed.

Lemma extend_left_diagonal (besti bestsize : nat) :
  extend_left x x 0 0 besti besti bestsize = (0, 0, bestsize + besti).
Proof.
  revert bestsize. induction besti as [|i IH]; intro bestsize;
    cbn [extend_left].
  - rewrite Nat.add_0_r. reflexivity.
  - unfold at_a, at_b. rewrite Ascii.eqb_refl.
    replace (0 <? S i) with true by (symmetry; apply Nat.ltb_lt; lia).
    cbn [andb]. fold (at_a x) (at_b x). rewrite IH. f_equal. lia.
Qed.

Lemma extend_right_diagonal (m : nat) :
  forall bestsize,
    bestsize + m = length x ->
    extend_right x x m (length x) 0 0 bestsize = (0, 0, length x).
Proof.
  induction m as [|m IH]; intros bestsize H; cbn [extend_right].
  - rewrite Nat.add_0_r in H. rewrite H. reflexivity.
  - cbn [Nat.add]. unfold at_a, at_b. rewrite Ascii.eqb_refl.
    replace (bestsize <? length x) with true
      by (symmetry; apply Nat.ltb_lt; lia).
    cbn [andb]. fold (at_a x) (at_b x). apply IH. lia.
Qed.

(** The longest match of a string with itself is the whole string. *)
Lemma find_longest_match_self :
  find_longest_match x x 0 (length x) 0 (length x) = (0, 0, length x).
Proof.
  unfold find_longest_match. rewrite Nat.sub_0_r.
  pose proof (scan_rows_diagonal (length x) 0 [] (0, 0, 0) eq_refl) as D.
  pose proof (scan_rows_within x x 0 (length x) 0 (length x) (length x)
                0 [] (0, 0, 0) (le_n _) (le_n _)) as W.
  destruct (scan_rows x x (length x) 0 0 (length x) [] (0, 0, 0))
    as [[besti bestj] bestsize].
  assert (D' : diagonal (besti, bestj, bestsize)).
  { apply D.
    - intro j. reflexivity.
    - reflexivity.
    - intros i' j Hi'. replace i' with 0 by lia. cbn [common]. lia. }
  assert (W' : within 0 (length x) 0 (length x) (besti, bestj, bestsize)).
  { apply W.
    - intro j. cbn [get]. lia.
    - unfold within, size. cbn [fst snd]. lia. }
  unfold diagonal in D'. cbn [fst snd] in D'. subst bestj.
  rewrite extend_left_diagonal. cbn [Nat.add].
  unfold within, size in W'. cbn [fst snd] in W'.
  apply extend_right_diagonal. lia.
Qed.

Lemma matches_self : matches x x = length x.
Proof.
  unfold matches, get_matching_blocks. cbn [blocks_in].
  rewrite find_longest_match_self.
  destruct (length x =? 0) eqn:E.
  - apply Nat.eqb_eq in E. rewrite E. reflexivity.
  - rewrite Nat.ltb_irrefl. cbn [andb Nat.add].
    rewrite Nat.ltb_irrefl. cbn [andb app map list_sum fold_right size snd]. lia.
Qed.

(** The ratio of a string with itself is 1. *)
Lemma ratio_self : (ratio x x == 1)%Q.
Proof.
  unfold ratio, calculate_ratio. rewrite matches_self.
  destruct (length x + length x =? 0) eqn:E; [apply Qeq_refl|].
  apply Nat.eqb_neq in E. unfold Qeq. cbn [Qnum Qden].
  rewrite Z.mul_1_r, Z.mul_1_l.
  destruct (length x + length x) as [|n] eqn:L; [congruence|].
  rewrite <- Pos.of_nat_succ. lia.
Qed.

End MatcherIdentity.

(** ** The similarity scorer *)

Section SimilarityClaims.
Import PyStr.
Import Resolver.

(** C6, as the code has it: a score lies between 0 and 1, and the score of a
    string against itself is 1, for the empty string as well. *)
Theorem calculate_similarity_range_and_identity (str1 str2 : pystr) :
  (0 <= calculate_similarity str1 str2)%Q /\
  (calculate_similarity str1 str2 <= 1)%Q /\
  (calculate_similarity str1 str1 == 1)%Q.
Proof.
  unfold calculate_similarity.
  pose proof (ratio_range (lower str1) (lower str2)) as [L U].
  split; [exact L|]. split; [exact U|]. apply ratio_self.
Qed.

(** C6 fails as stated: the score is not symmetric. The matcher looks for
    the longest block first, and which of several longest blocks it takes
    depends on which string comes first. *)
Lemma calculate_similarity_is_not_symmetric :
  calculate_similarity (s "tide") (s "diet") = (2 # 8)%Q /\
  calculate_similarity (s "diet") (s "tide") = (4 # 8)%Q /\
  ~ (calculate_similarity (s "tide") (s "diet")
     == calculate_similarity (s "diet") (s "tide"))%Q.
Proof.
  split; [vm_compute; reflexivity|]. split; [vm_compute; reflexivity|].
  vm_compute. discriminate.
Qed.

End SimilarityClaims.

(* ================================================================= *)
(** * Further properties of the code *)

(** ** Normalization of names *)

Section Normalization.
Import PyStr.

Ltac by_cases_on_char c :=
  destruct c as [[] [] [] [] [] [] [] []]; reflexivity.

Lemma isspace_lower_char (c : ascii) : isspace (lower_char c) = isspace c.
Proof. by_cases_on_char c. Qed.

Lemma lower_char_idempotent (c : ascii) : lower_char (lower_char c) = lower_char c.
Proof. by_cases_on_char c. Qed.

Lemma lower_idempotent (x : pystr) : lower (lower x) = lower x.
Proof.
  unfold lower. rewrite map_map. apply map_ext. apply lower_char_idempotent.
Qed.

Lemma lstrip_lower (x : pystr) : lstrip (lower x) = lower (lstrip x).
Proof.
  induction x as [|c x IH]; [reflexivity|].
  cbn [lower map lstrip]. rewrite isspace_lower_char.
  destruct (isspace c); [exact IH | reflexivity].
Qed.

Lemma strip_lower (x : pystr) : strip (lower x) = lower (strip x).
Proof.
  unfold strip, rstrip. rewrite lstrip_lower. unfold lower at 1.
  rewrite <- map_rev. fold (lower (rev (lstrip x))). rewrite lstrip_lower.
  unfold lower. rewrite map_rev. reflexivity.
Qed.

Lemma lstrip_fixed (x : pystr) :
  match x with c :: _ => isspace c = false | [] => True end -> lstrip x = x.
Proof. destruct x as [|c t]; [reflexivity|]. cbn [lstrip]. intros ->. reflexivity. Qed.

Lemma lstrip_idempotent (x : pystr) : lstrip (lstrip x) = lstrip x.
Proof.
  apply lstrip_fixed. destruct (lstrip x) as [|c t] eqn:E; [exact I|].
  exact (lstrip_head _ _ _ E).
Qed.

Lemma rstrip_idempotent (x : pystr) : rstrip (rstrip x) = rstrip x.
Proof. unfold rstrip. rewrite rev_involutive, lstrip_idempotent. reflexivity. Qed.

Lemma strip_idempotent (x : pystr) : strip (strip x) = strip x.
Proof.
  assert (L : lstrip (strip x) = strip x).
  { apply lstrip_fixed. destruct (strip x) as [|c t] eqn:E; [exact I|].
    exact (strip_head _ _ _ E). }
  unfold strip at 1. rewrite L. unfold strip. apply rstrip_idempotent.
Qed.

(** Normalizing a name twice is normalizing it once. *)
Lemma clean_idempotent (x : pystr) : clean (clean x) = clean x.
Proof.
  unfold clean. rewrite strip_lower, strip_idempotent, <- strip_lower.
  rewrite lower_idempotent. reflexivity.
Qed.

End Normalization.

(** ** More on the Impact Factor Resolver *)

Section ResolverExtras.
Import PyStr.
Import Resolver.

(** The lookup sees the name only through its normal form, so case and
    surrounding white space of the candidate do not matter: looking up the
    normalized name gives the same result and leaves the same table. *)
Theorem lookup_ignores_case_and_padding (name : pystr) (df : DataFrame) (t : Q) :
  get_impact_factor (strip (lower name)) df t = get_impact_factor name df t.
Proof.
  unfold get_impact_factor. fold (clean name). fold (clean (clean name)).
  rewrite clean_idempotent. reflexivity.
Qed.

(** Loading a spreadsheet and looking up one of its journal names, in any
    case and with any surrounding white space, finds that row exactly, with
    its impact factor, provided no earlier row has the same normalized name
    (an earlier row may have a blank name); the table is left as loaded. *)
Theorem load_then_lookup
    (before after : list (cell * Q)) (journal query : pystr) (factor t : Q) :
  strip (lower query) = strip (lower journal) ->
  (forall r x, In r before -> fst r = Text x ->
     strip (lower x) <> strip (lower journal)) ->
  exists df,
    load_journal_database (Ok (before ++ (Text journal, factor) :: after)) = Ok df /\
    get_impact_factor query df t = (df, Ok (Some (Exact (Text journal) factor))).
Proof.
  intros Hq Hb. eexists.
  split; [apply (load_journal_database_named _ journal factor);
          apply in_elt|].
  apply (get_impact_factor_exact query _ t
           (Entry (Text journal) factor (Text (strip (lower journal))))).
  unfold table_of. cbn [rows]. rewrite map_app. cbn [map fst snd lower_strip].
  apply find_first.
  - intros y Hy. apply in_map_iff in Hy. destruct Hy as (r & <- & Hr).
    apply is_exact_false. cbn [journal_name_lower].
    destruct (fst r) as [x|] eqn:T; cbn [lower_strip]; [|discriminate].
    intro E. injection E as E. unfold clean in E. rewrite Hq in E.
    exact (Hb r x Hr T E).
  - apply is_exact_true. cbn [journal_name_lower]. unfold clean.
    rewrite Hq. reflexivity.
Qed.

Lemma load_then_lookup_witness :
  exists df,
    load_journal_database
      (Ok ([(Text (s "Nature Physics"), 18.4%Q); (Blank, 2%Q)]
           ++ (Text (s "Nature"), 69.5%Q)
           :: [(Text (s "Science"), 45.8%Q)])) = Ok df /\
    get_impact_factor (s "  NATURE ") df default_threshold
      = (df, Ok (Some (Exact (Text (s "Nature")) 69.5%Q))).
Proof.
  apply (load_then_lookup [(Text (s "Nature Physics"), 18.4%Q); (Blank, 2%Q)]
           [(Text (s "Science"), 45.8%Q)]
           (s "Nature") (s "  NATURE ") 69.5%Q default_threshold).
  - vm_compute. reflexivity.
  - intros r x [<-|[<-|[]]] E; [|discriminate].
    injection E as <-. vm_compute. discriminate.
Defined.

Lemma get_impact_factor_raises
    (name : pystr) (df : DataFrame) (t : Q) (e : exception) :
  snd (get_impact_factor name df t) = Raise e <->
  existsb (is_exact name) (rows df) = false /\
  ((has_blank df = true /\ e = AttributeError) \/
   (rows df = [] /\ e = ValueError)).
Proof.
  destruct (find (is_exact name) (rows df)) as [row|] eqn:F.
  - rewrite (get_impact_factor_exact _ _ t _ F). cbn [snd].
    destruct (existsb (is_exact name) (rows df)) eqn:E.
    + split; [discriminate | intros [X _]; discriminate].
    + apply find_none_existsb in E. congruence.
  - pose proof F as F'. apply find_none_existsb in F'. rewrite F'.
    destruct (has_blank df) eqn:B.
    + rewrite (get_impact_factor_blank _ _ t F B). cbn [snd]. split.
      * intro H. injection H as <-. split; [reflexivity|]. left. split; reflexivity.
      * intros [_ [[_ ->]|[R _]]]; [reflexivity|].
        unfold has_blank in B. rewrite R in B. discriminate.
    + destruct (rows df) as [|r l] eqn:R.
      * unfold get_impact_factor. rewrite R. cbn. split.
        -- intro H. injection H as <-. split; [reflexivity|]. right.
           split; reflexivity.
        -- intros [_ [[X _]|[_ ->]]]; [discriminate | reflexivity].
      * destruct (get_impact_factor_returns name df t) as [x E];
          [rewrite R; discriminate | exact B |].
        rewrite E. split; [discriminate|].
        intros [_ [[X _]|[X _]]]; discriminate.
Qed.

(** When the lookup raises: exactly when no row matches the candidate
    exactly and either some name cell is blank, and then it raises
    [AttributeError], or the table is empty, and then it raises [ValueError].
    [KeyError] is never raised, and on a table that has a row and no blank
    name cell the lookup never raises. *)
Theorem lookup_raises_exactly_when
    (name : pystr) (df : DataFrame) (t : Q) (e : exception) :
  snd (get_impact_factor name df t) = Raise e <->
  existsb (is_exact name) (rows df) = false /\
  ((has_blank df = true /\ e = AttributeError) \/
   (rows df = [] /\ e = ValueError)).
Proof. apply get_impact_factor_raises. Qed.

(** What a returned match says about the table. *)
Definition match_from_table (name : pystr) (df : DataFrame) (t : Q)
    (m : match_info) : Prop :=
  match m with
  | Exact matched factor =>
      exists row, In row (rows df) /\
        journal_name row = matched /\ impact_factor row = factor /\
        journal_name_lower row = Text (clean name)
  | Fuzzy matched factor score =>
      exists row x, In row (rows df) /\
        journal_name row = matched /\ impact_factor row = factor /\
        journal_name_lower row = Text x /\
        score = round3 (calculate_similarity x (clean name)) /\
        (t <= calculate_similarity x (clean name))%Q /\
        (forall r, In r (rows df) -> journal_name_lower r <> Text (clean name)) /\
        has_blank df = false
  end.

Lemma scores_nth (name : pystr) (df : DataFrame) (names : list pystr)
    (label : nat) (row : entry) (score : Q) :
  names_are df names ->
  nth_error (rows df) label = Some row ->
  nth_error (scores name names) label = Some score ->
  exists x, journal_name_lower row = Text x /\
            score = calculate_similarity x (clean name).
Proof.
  intros N R Sc. destruct (names_are_nth _ _ _ _ N R) as (x & Nx & T).
  exists x. split; [exact T|]. unfold scores in Sc.
  rewrite nth_error_map, Nx in Sc. cbn in Sc. congruence.
Qed.

Lemma get_impact_factor_match
    (name : pystr) (df : DataFrame) (t : Q) (m : match_info) :
  snd (get_impact_factor name df t) = Ok (Some m) ->
  match_from_table name df t m.
Proof.
  destruct (find (is_exact name) (rows df)) as [row|] eqn:F.
  - rewrite (get_impact_factor_exact _ _ t _ F). cbn [snd].
    intro H. injection H as <-. apply find_some in F. destruct F as [I E].
    exists row. repeat split; trivial. apply is_exact_true. exact E.
  - destruct (has_blank df) eqn:B.
    { rewrite (get_impact_factor_blank _ _ t F B). discriminate. }
    destruct (no_blank_names_are _ B) as (names & N).
    rewrite (get_impact_factor_fuzzy _ _ t _ F N). cbv zeta.
    destruct (idxmax (scores name names)) as [label|e] eqn:Ei; [|discriminate].
    unfold loc. cbn [similarity rows].
    destruct (nth_error (rows df) label) as [row|] eqn:R; [|discriminate].
    destruct (nth_error (scores name names) label) as [score|] eqn:Sc;
      [|discriminate].
    destruct (Qle_bool t score) eqn:Le; [|discriminate].
    cbn [snd]. intro H. injection H as <-.
    destruct (scores_nth _ _ _ _ _ _ N R Sc) as (x & T & Hs).
    exists row, x. split; [eapply nth_error_In; exact R|].
    split; [reflexivity|]. split; [reflexivity|]. split; [exact T|].
    split; [rewrite Hs; reflexivity|]. split; [|split; [|exact B]].
    + rewrite <- Hs. apply Qle_bool_iff. exact Le.
    + intros r Hr. apply is_exact_false. exact (find_none _ _ F r Hr).
Qed.



(** With a threshold above 1 the lookup never returns a fuzzy match: only an
    exact match can be found. *)
Theorem threshold_above_one_is_exact_only
    (name : pystr) (df : DataFrame) (t : Q) (m : match_info) :
  (1 < t)%Q ->
  snd (get_impact_factor name df t) = Ok (Some m) ->
  exists matched factor, m = Exact matched factor.
Proof.
  intros Ht H. pose proof (get_impact_factor_match name df t m H) as M.
  destruct m as [matched factor|matched factor score]; [eauto|].
  destruct M as (row & x & _ & _ & _ & _ & _ & Le & _). exfalso.
  pose proof (ratio_range (lower x) (lower (clean name))) as [_ U].
  unfold calculate_similarity in Le.
  apply (Qlt_not_le _ _ Ht). eapply Qle_trans; eassumption.
Qed.

Lemma threshold_above_one_is_exact_only_witness :
  (1 < 2)%Q /\
  snd (get_impact_factor (s "nature") three_journals 2%Q)
    = Ok (Some (Exact (Text (s "Nature")) 69.5%Q)) /\
  exists matched factor, Exact (Text (s "Nature")) 69.5%Q = Exact matched factor.
Proof.
  assert (H : snd (get_impact_factor (s "nature") three_journals 2%Q)
              = Ok (Some (Exact (Text (s "Nature")) 69.5%Q)))
    by (vm_compute; reflexivity).
  assert (L : (1 < 2)%Q) by reflexivity.
  split; [exact L|]. split; [exact H|].
  exact (threshold_above_one_is_exact_only (s "nature") three_journals 2%Q _ L H).
Defined.

(** With a threshold of 0 or less the lookup on a table that has a row and
    no blank name cell always returns a match, whatever the name is. *)
Theorem threshold_zero_always_matches (name : pystr) (df : DataFrame) (t : Q) :
  (t <= 0)%Q -> rows df <> [] -> has_blank df = false ->
  exists m, snd (get_impact_factor name df t) = Ok (Some m).
Proof.
  intros Ht Hne B. destruct (find (is_exact name) (rows df)) as [row|] eqn:F.
  - rewrite (get_impact_factor_exact _ _ t _ F). eexists. reflexivity.
  - destruct (no_blank_names_are _ B) as (names & N).
    rewrite (get_impact_factor_fuzzy _ _ t _ F N). cbv zeta.
    pose proof (names_are_length _ _ N) as Len.
    destruct (idxmax_spec (scores name names)) as (label & score & -> & Hs & _).
    { unfold scores. destruct names; [|discriminate].
      destruct (rows df); [congruence | discriminate]. }
    unfold loc. cbn [similarity rows]. rewrite Hs.
    pose proof (nth_error_lt _ _ _ Hs) as L. unfold scores in L.
    rewrite length_map in L.
    destruct (nth_error (rows df) label) as [row|] eqn:R;
      [|apply nth_error_None in R; lia].
    destruct (scores_nth _ _ _ _ _ _ N R Hs) as (x & _ & Hsc).
    pose proof (ratio_range (lower x) (lower (clean name))) as [Lo _].
    assert (Le : Qle_bool t score = true).
    { apply Qle_bool_iff. rewrite Hsc. unfold calculate_similarity.
      eapply Qle_trans; eassumption. }
    rewrite Le. eexists. reflexivity.
Qed.

Lemma threshold_zero_always_matches_witness :
  exists m, snd (get_impact_factor (s "zzz") three_journals 0%Q) = Ok (Some m).
Proof.
  apply (threshold_zero_always_matches (s "zzz") three_journals 0%Q).
  - apply Qle_refl.
  - discriminate.
  - reflexivity.
Defined.

(** Lookups do not disturb each other: what a lookup returns on the table
    that an earlier lookup has written to is what it returns on the table as
    it was before. *)
Theorem lookups_do_not_interfere
    (name1 name2 : pystr) (df : DataFrame) (t1 t2 : Q) :
  snd (get_impact_factor name2 (fst (get_impact_factor name1 df t1)) t2)
  = snd (get_impact_factor name2 df t2).
Proof.
  apply get_impact_factor_rows_only. apply get_impact_factor_keeps_rows.
Qed.

(** The score of two strings is at most twice the length of the shorter one
    over the sum of the lengths, the lengths being those of the lowered
    strings, which are what is compared: a name much shorter or longer than
    an entry cannot score high against it. *)
Theorem similarity_bounded_by_lengths (str1 str2 : pystr) :
  0 < length (lower str1) + length (lower str2) ->
  (calculate_similarity str1 str2 <=
   Z.of_nat (2 * Nat.min (length (lower str1)) (length (lower str2)))
     # Pos.of_nat (length (lower str1) + length (lower str2)))%Q.
Proof.
  intro Hpos. unfold calculate_similarity, Difflib.ratio, Difflib.calculate_ratio.
  destruct (get_matching_blocks_returns (lower str1) (lower str2))
    as (bs & _ & -> & L1 & L2).
  destruct (length (lower str1) + length (lower str2) =? 0) eqn:E;
    [apply Nat.eqb_eq in E; lia|].
  unfold Qle. cbn [Qnum Qden]. apply Z.mul_le_mono_nonneg_r; lia.
Qed.

Lemma similarity_bounded_by_lengths_witness :
  (calculate_similarity (s "Cell") (s "Nature Physics") <=
   Z.of_nat (2 * Nat.min (length (lower (s "Cell")))
                         (length (lower (s "Nature Physics"))))
     # Pos.of_nat (length (lower (s "Cell"))
                   + length (lower (s "Nature Physics"))))%Q.
Proof.
  apply (similarity_bounded_by_lengths (s "Cell") (s "Nature Physics")).
  cbn. lia.
Defined.

End ResolverExtras.

(** ** More on the Journal Name Extractor *)

Section ExtractorExtras.
Import PyStr.
Import Re.
Import Extractor.

Lemma alpha_not_space (c : ascii) : isalpha c = true -> isspace c = false.
Proof. destruct c as [[] [] [] [] [] [] [] []]; vm_compute; congruence. Qed.

Lemma lstrip_keeps_nonspace (x : pystr) (c : ascii) :
  In c x -> isspace c = false -> lstrip x <> [].
Proof.
  induction x as [|a x IH]; intros I Hc; [destruct I|].
  cbn [lstrip]. destruct (isspace a) eqn:E; [|discriminate].
  destruct I as [->|I]; [congruence | auto].
Qed.

(** A string with a character that is not white space does not strip to the
    empty string. *)
Lemma strip_keeps_nonspace (x : pystr) (c : ascii) :
  In c x -> isspace c = false -> strip x <> [].
Proof.
  intros I Hc. unfold strip.
  destruct (lstrip x) as [|d u] eqn:E;
    [exfalso; exact (lstrip_keeps_nonspace x c I Hc E)|].
  pose proof (lstrip_head _ _ _ E) as Hd.
  destruct (strip_keeps_head d u Hd) as [t' H'].
  unfold strip in H'. cbn [lstrip] in H'. rewrite Hd in H'. rewrite H'.
  discriminate.
Qed.

Lemma drop_punctuation_keeps_alpha (x : pystr) :
  any_alpha x = true ->
  exists c, In c (drop_punctuation x) /\ isalpha c = true.
Proof.
  unfold any_alpha. induction x as [|a t IH]; simpl; [discriminate|].
  destruct (isalpha a) eqn:E.
  - intros _. rewrite (alpha_not_punct _ E). exists a. split; [left|]; trivial.
  - simpl. intro H. destruct (punct_char a).
    + exact (IH H).
    + destruct (IH H) as (c & I & Hc).
      apply existsb_exists in H. destruct H as (c' & I' & Hc').
      exists c'. split; [right; exact I' | exact Hc'].
Qed.

Lemma stripped_nonempty (y : pystr) : strip y <> [] -> strip (strip y) <> [].
Proof. rewrite strip_idempotent. trivial. Qed.

Lemma extract_journal_from_subject_visible (subject j : pystr) :
  extract_journal_from_subject subject = Some j -> strip j <> [].
Proof.
  unfold extract_journal_from_subject.
  destruct (negb (truthy subject)); [discriminate|]. intro H.
  apply or_else_some in H. destruct H as [H|[_ H]].
  { unfold rule_comma in H.
    destruct (contains (s ",") (strip subject)); [|discriminate].
    destruct (truthy _ && any_alpha _) eqn:E; [|discriminate].
    apply andb_prop in E. destruct E as [_ E].
    injection H as <-. rewrite sub_empty_re_prefix.
    destruct (drop_punctuation_keeps_alpha _ E) as (c & I & Hc).
    exact (strip_keeps_nonspace _ c I (alpha_not_space c Hc)). }
  apply or_else_some in H. destruct H as [H|[_ H]].
  { pose proof (rule_doi_nonempty _ _ H) as N. unfold rule_doi in H.
    destruct (contains _ _); [|discriminate].
    destruct (truthy _); [|discriminate].
    injection H as <-. apply stripped_nonempty. exact N. }
  apply or_else_some in H. destruct H as [H|[_ H]].
  { pose proof (rule_year_nonempty _ _ H) as N. unfold rule_year in H.
    destruct (search re_year (strip subject)); [|discriminate].
    injection H as <-. apply stripped_nonempty. exact N. }
  pose proof (rule_trailing_nonempty _ _ H) as N. unfold rule_trailing in H.
  destruct (truthy _ && _); [|discriminate].
  injection H as <-. apply stripped_nonempty. exact N.
Qed.

Lemma first_pattern_stripped (ps : list regex) (text j : pystr) :
  first_pattern ps text = Some j -> strip j = j.
Proof.
  induction ps as [|p ps IH]; cbn [first_pattern]; [discriminate|].
  destruct (search p text); [|exact IH].
  intro H. injection H as <-. apply strip_idempotent.
Qed.

(** What the extractor returns never normalizes to the empty name: it has a
    character that is not white space, so the resolver is never asked to
    look up an empty normalized name. *)
Theorem extracted_name_normalizes_to_nonempty
    (text : pystr) (md : metadata) (j : pystr) :
  extract_journal_name text md = Some j -> strip (lower j) <> [].
Proof.
  intro H. rewrite strip_lower. unfold lower. intro E.
  apply map_eq_nil in E. revert E.
  unfold extract_journal_name in H.
  apply or_else_some in H. destruct H as [H|[_ H]].
  - unfold from_subject in H.
    destruct (get _ md) as [subject|]; [|discriminate].
    destruct (truthy subject); [|discriminate].
    destruct (extract_journal_from_subject subject) as [j'|] eqn:X;
      [|discriminate].
    destruct (truthy j'); [|discriminate].
    injection H as <-. exact (extract_journal_from_subject_visible _ _ X).
  - rewrite (first_pattern_stripped _ _ _ H).
    exact (first_pattern_nonempty patterns _ _ (fun r I => I) H).
Qed.

Lemma extracted_name_normalizes_to_nonempty_witness :
  extract_journal_name [] [(s "/Subject", s "- Nature, 2023")] = Some (s " Nature") /\
  strip (lower (s " Nature")) = s "nature" /\
  strip (lower (s " Nature")) <> [].
Proof.
  assert (H : extract_journal_name [] [(s "/Subject", s "- Nature, 2023")]
              = Some (s " Nature")) by (vm_compute; reflexivity).
  split; [exact H|]. split; [vm_compute; reflexivity|].
  exact (extracted_name_normalizes_to_nonempty [] _ _ H).
Defined.

(** The subject of the metadata has priority: when the sub-chain finds a
    name in the value of [/Subject], that name is returned whatever the text
    of the document is. *)
Theorem subject_decides_before_text
    (md : metadata) (subject j text : pystr) :
  get (s "/Subject") md = Some subject ->
  extract_journal_from_subject subject = Some j ->
  extract_journal_name text md = Some j.
Proof.
  intros G X. unfold extract_journal_name, from_subject. rewrite G.
  assert (T : truthy subject = true).
  { unfold extract_journal_from_subject in X.
    destruct (truthy subject); [reflexivity | discriminate]. }
  rewrite T, X.
  pose proof (extract_journal_from_subject_nonempty _ _ X) as N.
  apply truthy_nonempty in N. rewrite N. reflexivity.
Qed.

Lemma subject_decides_before_text_witness :
  extract_journal_name (s "Journal: Nature Physics")
    [(s "/Title", s "A paper"); (s "/Subject", s "Cell 2023")] = Some (s "Cell").
Proof.
  apply (subject_decides_before_text
           [(s "/Title", s "A paper"); (s "/Subject", s "Cell 2023")]
           (s "Cell 2023") (s "Cell") (s "Journal: Nature Physics")).
  - vm_compute. reflexivity.
  - vm_compute. reflexivity.
Defined.

(** White space around the subject does not matter, and a subject of white
    space only yields no name, although the test for an empty subject comes
    before the stripping. *)
Theorem subject_padding_is_irrelevant (subject : pystr) :
  extract_journal_from_subject (strip subject)
    = extract_journal_from_subject subject /\
  (strip subject = [] -> extract_journal_from_subject subject = None).
Proof.
  assert (E : strip subject = [] -> extract_journal_from_subject subject = None).
  { intro H. unfold extract_journal_from_subject. rewrite H.
    destruct (negb (truthy subject)); reflexivity. }
  split; [|exact E].
  destruct (strip subject) as [|c t] eqn:S0.
  - rewrite (E eq_refl). reflexivity.
  - unfold extract_journal_from_subject. rewrite <- S0, strip_idempotent.
    rewrite S0. cbn [truthy negb].
    destruct subject as [|a x]; [discriminate|]. reflexivity.
Qed.

Lemma subject_padding_is_irrelevant_witness :
  extract_journal_from_subject (s "   ") = None.
Proof.
  apply (proj2 (subject_padding_is_irrelevant (s "   "))).
  vm_compute. reflexivity.
Defined.

Lemma first_pattern_capital (ps : list regex) (text j : pystr) :
  (forall r, In r ps -> In r patterns) ->
  first_pattern ps text = Some j ->
  exists c t, j = c :: t /\ upper_az c = true.
Proof.
  induction ps as [|p ps IH]; intros Hps H; cbn [first_pattern] in H;
    [discriminate|].
  destruct (search p text) as [m|] eqn:E.
  - injection H as <-. unfold search in E.
    apply search_from_found in E. destruct E as (c0 & w & _ & I & _).
    destruct (patterns_group p c0 (m_end m)) as (a & w' & G & Pa);
      [apply Hps; left; reflexivity | exact I |].
    unfold group1. rewrite G.
    destruct (strip_keeps_head a w' (upper_not_space _ Pa)) as [t' ->].
    exists a, t'. split; [reflexivity | exact Pa].
  - apply IH; [|exact H]. intros r Hr. apply Hps. right. exact Hr.
Qed.

(** Without a name from the metadata, a name found in the text starts with a
    capital letter A to Z. *)
Theorem name_from_text_starts_with_capital
    (text : pystr) (md : metadata) (j : pystr) :
  from_subject md = None ->
  extract_journal_name text md = Some j ->
  exists c t, j = c :: t /\ upper_az c = true.
Proof.
  intros Hs H. unfold extract_journal_name in H. rewrite Hs in H.
  cbn [or_else] in H.
  exact (first_pattern_capital patterns _ _ (fun r I => I) H).
Qed.

Lemma name_from_text_starts_with_capital_witness :
  exists c t, s "Annals of Stuff" = c :: t /\ upper_az c = true.
Proof.
  apply (name_from_text_starts_with_capital
           (s "see the Annals of Stuff  Vol. 12 (2020)") [] (s "Annals of Stuff")).
  - reflexivity.
  - vm_compute. reflexivity.
Defined.

End ExtractorExtras.

(** ** The readers *)

Section ReaderExtras.
Import PyStr.
Import Reader.

(** Reading a list of pages one after the other: the texts are appended, and
    the first page that raises ends the reading. *)
Fixpoint collect (ps : list (result pystr)) (text : pystr) : result pystr :=
  match ps with
  | [] => Ok text
  | Ok page_text :: rest => collect rest (text ++ page_text)
  | Raise e :: _ => Raise e
  end.

Lemma read_loop_collect (ps : list (result pystr)) (count : nat) :
  forall page_num text,
    page_num + count <= length ps ->
    read_loop ps count page_num text
    = collect (firstn count (skipn page_num ps)) text.
Proof.
  induction count as [|count IH]; intros page_num text H; [reflexivity|].
  cbn [read_loop].
  destruct (nth_error ps page_num) as [r|] eqn:E;
    [|apply nth_error_None in E; lia].
  apply nth_error_split in E. destruct E as (l1 & l2 & -> & <-).
  rewrite skipn_app, skipn_all, Nat.sub_diag. cbn [skipn app firstn collect].
  destruct r as [page_text|e]; [|reflexivity].
  rewrite IH by (rewrite length_app in *; cbn [length] in *; lia).
  replace (S (length l1)) with (length (l1 ++ [Ok page_text]))
    by (rewrite length_app; cbn [length]; lia).
  replace (l1 ++ Ok page_text :: l2) with ((l1 ++ [Ok page_text]) ++ l2)
    by (rewrite <- app_assoc; reflexivity).
  rewrite skipn_app, skipn_all, Nat.sub_diag. reflexivity.
Qed.

(** The pages that [extract_text_from_pdf] reads. *)
Definition pages_read (pdf_reader : pdf_reader) (max_pages : Z) : list (result pystr) :=
  firstn (Z.to_nat max_pages) (pages pdf_reader).

Lemma extract_text_collect (pdf_reader : pdf_reader) (max_pages : Z) :
  extract_text_from_pdf (Ok pdf_reader) max_pages
  = collect (pages_read pdf_reader max_pages) [].
Proof.
  unfold extract_text_from_pdf, pages_read. cbv zeta.
  rewrite read_loop_collect by lia. cbn [skipn].
  rewrite Z2Nat.inj_min, Nat2Z.id.
  destruct (Nat.le_ge_cases (Z.to_nat max_pages) (length (pages pdf_reader)))
    as [L|G].
  - rewrite Nat.min_l by exact L. reflexivity.
  - rewrite Nat.min_r by exact G. rewrite !firstn_all2 by lia. reflexivity.
Qed.

Lemma collect_all_read (ts : list pystr) (text : pystr) :
  collect (map Ok ts) text = Ok (text ++ concat ts).
Proof.
  revert text. induction ts as [|t ts IH]; intro text; cbn [map collect concat].
  - rewrite app_nil_r. reflexivity.
  - rewrite IH, app_assoc. reflexivity.
Qed.

Lemma collect_first_failure (ts : list pystr) (e : exception)
    (rest : list (result pystr)) (text : pystr) :
  collect (map Ok ts ++ Raise e :: rest) text = Raise e.
Proof.
  revert text. induction ts as [|t ts IH]; intro text; cbn [map app collect];
    [reflexivity | apply IH].
Qed.

(** The text of a file that opens is the text of its first [max_pages] pages
    (of all pages when there are fewer), appended in order; if one of these
    pages cannot be read the exception of the first such page is raised, and
    no other exception arises from the loop. *)
Theorem extract_text_reads_first_pages
    (pdf_reader : pdf_reader) (max_pages : Z) :
  (forall ts, pages_read pdf_reader max_pages = map Ok ts ->
     extract_text_from_pdf (Ok pdf_reader) max_pages = Ok (concat ts)) /\
  (forall ts e rest,
     pages_read pdf_reader max_pages = map Ok ts ++ Raise e :: rest ->
     extract_text_from_pdf (Ok pdf_reader) max_pages = Raise e).
Proof.
  split.
  - intros ts H. rewrite extract_text_collect, H. apply collect_all_read.
  - intros ts e rest H. rewrite extract_text_collect, H.
    apply collect_first_failure.
Qed.

(** A file of three pages whose third page cannot be read. *)
Definition three_pages : pdf_reader :=
  PdfReader [Ok (s "Journal: "); Ok (s "Nature Physics");
             Raise (OtherError (s "bad page"))]
            (Some [(s "/Title", s "A paper"); (s "/Subject", [])]).

Lemma extract_text_reads_first_pages_witness :
  extract_text_from_pdf (Ok three_pages) default_max_pages
    = Ok (s "Journal: Nature Physics") /\
  extract_text_from_pdf (Ok three_pages) 3%Z = Raise (OtherError (s "bad page")).
Proof.
  split.
  - exact (proj1 (extract_text_reads_first_pages three_pages default_max_pages)
             [s "Journal: "; s "Nature Physics"] eq_refl).
  - exact (proj2 (extract_text_reads_first_pages three_pages 3%Z)
             [s "Journal: "; s "Nature Physics"] (OtherError (s "bad page")) []
             eq_refl).
Defined.

(** Pages after the first [max_pages] are never read: two files that agree on
    their first [max_pages] pages give the same text or the same exception,
    whatever comes after, readable or not; with a limit of 0 or less the text
    is empty. *)
Theorem pages_beyond_limit_are_ignored
    (reader1 reader2 : pdf_reader) (max_pages : Z) :
  pages_read reader1 max_pages = pages_read reader2 max_pages ->
  extract_text_from_pdf (Ok reader1) max_pages
  = extract_text_from_pdf (Ok reader2) max_pages /\
  ((max_pages <= 0)%Z -> extract_text_from_pdf (Ok reader1) max_pages = Ok []).
Proof.
  intro H. split.
  - rewrite !extract_text_collect, H. reflexivity.
  - intro L. rewrite extract_text_collect. unfold pages_read.
    replace (Z.to_nat max_pages) with 0 by lia. reflexivity.
Qed.

Lemma pages_beyond_limit_are_ignored_witness :
  extract_text_from_pdf (Ok three_pages) default_max_pages
  = extract_text_from_pdf
      (Ok (PdfReader [Ok (s "Journal: "); Ok (s "Nature Physics")] None))
      default_max_pages.
Proof.
  apply (pages_beyond_limit_are_ignored three_pages
           (PdfReader [Ok (s "Journal: "); Ok (s "Nature Physics")] None)
           default_max_pages).
  reflexivity.
Defined.

Lemma get_filter_absent (key : pystr) (f : pystr * pystr -> bool)
    (d : Extractor.metadata) :
  ~ In key (map fst d) -> Extractor.get key (filter f d) = None.
Proof.
  induction d as [|[k v] d IH]; intro N; [reflexivity|].
  cbn [map fst In] in N. cbn [filter].
  assert (IH' : Extractor.get key (filter f d) = None) by (apply IH; tauto).
  destruct (f (k, v)); [|exact IH'].
  cbn [Extractor.get]. unfold eqb.
  destruct (list_eq_dec ascii_dec k key); [tauto | exact IH'].
Qed.

(** The metadata that [extract_metadata] returns has no empty value, and for
    a dictionary (no key twice) it maps a key to its value in the file when
    that value is not empty, and has no entry for the key otherwise; a file
    without document information gives the empty dictionary. *)
Theorem extract_metadata_drops_empty_values
    (pdf_reader : pdf_reader) (d : Extractor.metadata) (key : pystr) :
  metadata pdf_reader = Some d ->
  NoDup (map fst d) ->
  exists md,
    extract_metadata (Ok pdf_reader) = Ok md /\
    Forall (fun kv => snd kv <> []) md /\
    Extractor.get key md =
      match Extractor.get key d with
      | Some v => if truthy v then Some v else None
      | None => None
      end.
Proof.
  intros Hd Hu. unfold extract_metadata. rewrite Hd. eexists.
  split; [reflexivity|]. split.
  - apply Forall_forall. intros kv I. apply filter_In in I.
    destruct I as [_ T]. apply truthy_nonempty. exact T.
  - clear Hd. induction d as [|[k v] d IH]; [reflexivity|].
    cbn [map fst] in Hu. inversion Hu as [|? ? Hk Hu']; subst.
    cbn [filter snd Extractor.get]. unfold eqb at 1.
    destruct (list_eq_dec ascii_dec k key) as [->|Ne].
    + destruct (truthy v) eqn:T.
      * cbn [Extractor.get]. unfold eqb.
        destruct (list_eq_dec ascii_dec key key); [reflexivity | congruence].
      * apply get_filter_absent. exact Hk.
    + destruct (truthy v).
      * cbn [Extractor.get]. unfold eqb at 1.
        destruct (list_eq_dec ascii_dec k key); [congruence | exact (IH Hu')].
      * exact (IH Hu').
Qed.

Lemma extract_metadata_drops_empty_values_witness :
  exists md,
    extract_metadata (Ok three_pages) = Ok md /\
    Forall (fun kv => snd kv <> []) md /\
    Extractor.get (s "/Subject") md =
      match Extractor.get (s "/Subject")
              [(s "/Title", s "A paper"); (s "/Subject", [])] with
      | Some v => if truthy v then Some v else None
      | None => None
      end.
Proof.
  apply (extract_metadata_drops_empty_values three_pages
           [(s "/Title", s "A paper"); (s "/Subject", [])] (s "/Subject")).
  - reflexivity.
  - repeat constructor; simpl; intuition discriminate.
Defined.

End ReaderExtras.

(** ** More on per-document processing and the batch *)

Section PipelineExtras.
Import PyStr.
Import Resolver.
Import Pipeline.

Lemma get_impact_factor_none
    (name : pystr) (df : DataFrame) (t : Q) :
  snd (get_impact_factor name df t) = Ok None ->
  rows df <> [] /\
  forall row, In row (rows df) ->
    exists x, journal_name_lower row = Text x /\
      x <> clean name /\
      (calculate_similarity x (clean name) < t)%Q.
Proof.
  intro H. destruct (find (is_exact name) (rows df)) as [row|] eqn:F;
    [rewrite (get_impact_factor_exact _ _ t _ F) in H; discriminate|].
  assert (Hne : rows df <> []).
  { intro E. unfold get_impact_factor in H. rewrite E in H. discriminate. }
  split; [exact Hne|].
  destruct (has_blank df) eqn:B;
    [rewrite (get_impact_factor_blank _ _ t F B) in H; discriminate|].
  destruct (no_blank_names_are _ B) as (names & N).
  rewrite (get_impact_factor_fuzzy _ _ t _ F N) in H. cbv zeta in H.
  pose proof (names_are_length _ _ N) as Len.
  destruct (idxmax_spec (scores name names)) as (label & score & Ei & Hs & Hmax & _).
  { unfold scores. destruct names; [|discriminate].
    destruct (rows df); [congruence | discriminate]. }
  rewrite Ei in H. unfold loc in H. cbn [similarity rows] in H. rewrite Hs in H.
  destruct (nth_error (rows df) label) as [best|]; [|discriminate].
  destruct (Qle_bool t score) eqn:Le; [discriminate|].
  assert (Lt : (score < t)%Q).
  { apply Qnot_le_lt. intro L. apply Qle_bool_iff in L. congruence. }
  intros row I. apply In_nth_error in I. destruct I as [j Hj].
  destruct (names_are_nth _ _ _ _ N Hj) as (x & Nx & T).
  exists x. split; [exact T|]. split.
  - intro E. pose proof (find_none _ _ F row (nth_error_In _ _ Hj)) as X.
    apply is_exact_false in X. congruence.
  - eapply Qle_lt_trans; [|exact Lt]. apply (Hmax j).
    unfold scores. rewrite nth_error_map, Nx. reflexivity.
Qed.

(** The lookup returns none only on a table that has rows, all of which
    have a name, none of which matches exactly and all of which score below
    the threshold. *)
Theorem lookup_none_means_no_row_qualifies
    (name : pystr) (df : DataFrame) (t : Q) :
  snd (get_impact_factor name df t) = Ok None ->
  rows df <> [] /\
  forall row, In row (rows df) ->
    exists x, journal_name_lower row = Text x /\
      x <> clean name /\
      (calculate_similarity x (clean name) < t)%Q.
Proof. apply get_impact_factor_none. Qed.

Lemma lookup_none_means_no_row_qualifies_witness :
  rows three_journals <> [] /\
  forall row, In row (rows three_journals) ->
    exists x, journal_name_lower row = Text x /\
      x <> clean (s "Cell") /\
      (calculate_similarity x (clean (s "Cell")) < default_threshold)%Q.
Proof.
  apply (lookup_none_means_no_row_qualifies (s "Cell") three_journals
           default_threshold).
  vm_compute. reflexivity.
Defined.

(** Processing a document whose readers succeed and whose name is [ext]. *)
Lemma process_with_lookup (doc : document) (df : DataFrame)
    (text : pystr) (md : Extractor.metadata) (ext : pystr) :
  extract_text_from_pdf doc = Ok text ->
  extract_metadata doc = Ok md ->
  Extractor.extract_journal_name text md = Some ext ->
  process_with doc df =
    (fst (get_impact_factor ext df default_threshold),
     match snd (get_impact_factor ext df default_threshold) with
     | Raise e => Raise e
     | Ok None => Ok (NotFound NoMatchingJournal ext)
     | Ok (Some impact_info) => Ok (of_match ext impact_info)
     end).
Proof.
  intros Ht Hm Hx. unfold process_with. rewrite Ht, Hm, Hx.
  pose proof (extract_journal_name_nonempty _ _ _ Hx) as N.
  apply truthy_nonempty in N. rewrite N. cbn [negb].
  destruct (get_impact_factor ext df default_threshold) as [d [[i|]|e]];
    reflexivity.
Qed.

(** The three ways in which processing a document goes. *)
Lemma process_with_cases (doc : document) (df : DataFrame) :
  (exists e, read_error doc e /\
             process_with doc df = (df, Ok (Error (ReadFailed e) None))) \/
  (exists text md,
     extract_text_from_pdf doc = Ok text /\ extract_metadata doc = Ok md /\
     ((Extractor.extract_journal_name text md = None /\
       process_with doc df =
         (df, Ok (Error JournalNotRecognised (Some (slice_to 500 text))))) \/
      (exists ext, Extractor.extract_journal_name text md = Some ext))).
Proof.
  destruct (extract_text_from_pdf doc) as [text|e] eqn:Ht.
  - destruct (extract_metadata doc) as [md|e] eqn:Hm.
    + right. exists text, md. split; [reflexivity|]. split; [reflexivity|].
      destruct (Extractor.extract_journal_name text md) as [ext|] eqn:Hx.
      * right. exists ext. reflexivity.
      * left. split; [reflexivity|]. unfold process_with.
        rewrite Ht, Hm, Hx. reflexivity.
    + left. exists e. assert (R : read_error doc e).
      { right. exists text. split; assumption. }
      split; [exact R | exact (process_with_read_error doc df e R)].
  - left. exists e. assert (R : read_error doc e) by (left; exact Ht).
    split; [exact R | exact (process_with_read_error doc df e R)].
Qed.

(** When processing a document raises, the lookup of the extracted name
    has raised. *)
Lemma process_with_raises (doc : document) (df : DataFrame) (e : exception) :
  snd (process_with doc df) = Raise e ->
  exists text md ext,
    extract_text_from_pdf doc = Ok text /\ extract_metadata doc = Ok md /\
    Extractor.extract_journal_name text md = Some ext /\
    existsb (is_exact ext) (rows df) = false /\
    ((has_blank df = true /\ e = AttributeError) \/
     (rows df = [] /\ e = ValueError)).
Proof.
  intro H.
  destruct (process_with_cases doc df)
    as [(e' & _ & P)|(text & md & Ht & Hm & [[_ P]|[ext Hx]])];
    try (rewrite P in H; discriminate).
  rewrite (process_with_lookup doc df text md ext Ht Hm Hx) in H.
  cbn [snd] in H.
  destruct (snd (get_impact_factor ext df default_threshold))
    as [[i|]|e'] eqn:G; try discriminate.
  injection H as <-. apply get_impact_factor_raises in G.
  destruct G as [G1 G2]. exists text, md, ext. auto.
Qed.

Lemma process_with_raises_table (doc : document) (df : DataFrame) (e : exception) :
  snd (process_with doc df) = Raise e ->
  (has_blank df = true /\ e = AttributeError) \/ (rows df = [] /\ e = ValueError).
Proof.
  intro H. destruct (process_with_raises doc df e H)
    as (text & md & ext & _ & _ & _ & _ & X). exact X.
Qed.

(** The table that [process_pdf] works with: the one passed in, or the one
    loaded from the spreadsheet. *)
Definition table_at_hand (sheet : excel_sheet) (journal_df : option DataFrame)
    (df : DataFrame) : Prop :=
  journal_df = Some df \/
  (journal_df = None /\ load_journal_database sheet = Ok df).

(** [process_pdf] raises only what the lookup raises: a failure of a reader
    or of the loader is turned into an error record. When it raises, both
    readers have succeeded, the extractor has found a name, no row of the
    table at hand matches that name exactly, and either a name cell of the
    table is blank ([AttributeError]) or the table has no rows
    ([ValueError]). *)
Theorem process_pdf_raises_only_from_the_lookup
    (sheet : excel_sheet) (doc : document) (journal_df : option DataFrame)
    (e : exception) :
  snd (process_pdf sheet doc journal_df) = Raise e ->
  exists df text md ext,
    table_at_hand sheet journal_df df /\
    extract_text_from_pdf doc = Ok text /\ extract_metadata doc = Ok md /\
    Extractor.extract_journal_name text md = Some ext /\
    existsb (is_exact ext) (rows df) = false /\
    ((has_blank df = true /\ e = AttributeError) \/
     (rows df = [] /\ e = ValueError)).
Proof.
  unfold process_pdf, table_at_hand. destruct journal_df as [df|].
  - destruct (process_with doc df) as [df' r] eqn:P. cbn [snd]. intros ->.
    pose proof (process_with_raises doc df e) as R. rewrite P in R.
    destruct (R eq_refl) as (text & md & ext & R'). exists df, text, md, ext.
    split; [left; reflexivity | exact R'].
  - destruct (load_journal_database sheet) as [df|e']; cbn [snd];
      [|discriminate].
    intro H. destruct (process_with_raises doc _ e H) as (text & md & ext & R').
    exists df, text, md, ext.
    split; [right; split; reflexivity | exact R'].
Qed.

(** A PDF whose subject names a journal that [blank_name_table] lacks. *)
Definition cell_pdf : document :=
  Doc (s "papers/cell.pdf") (s "cell.pdf")
      (Ok (s "A letter")) (Ok [(s "/Subject", s "Cell, 2023")]).

Lemma process_pdf_raises_only_from_the_lookup_witness :
  snd (process_pdf no_table_file cell_pdf (Some blank_name_table))
    = Raise AttributeError /\
  exists df text md ext,
    table_at_hand no_table_file (Some blank_name_table) df /\
    extract_text_from_pdf cell_pdf = Ok text /\
    extract_metadata cell_pdf = Ok md /\
    Extractor.extract_journal_name text md = Some ext /\
    existsb (is_exact ext) (rows df) = false /\
    ((has_blank df = true /\ AttributeError = AttributeError) \/
     (rows df = [] /\ AttributeError = ValueError)).
Proof.
  assert (H : snd (process_pdf no_table_file cell_pdf (Some blank_name_table))
              = Raise AttributeError) by (vm_compute; reflexivity).
  split; [exact H|].
  exact (process_pdf_raises_only_from_the_lookup no_table_file cell_pdf
           (Some blank_name_table) AttributeError H).
Defined.

(** What a success record says about the document and the table. *)
Definition success_from (doc : document) (df : DataFrame)
    (ext : pystr) (matched : cell) (factor : Q) (kind : match_type)
    (score : option Q) : Prop :=
  (exists text md,
     extract_text_from_pdf doc = Ok text /\ extract_metadata doc = Ok md /\
     Extractor.extract_journal_name text md = Some ext) /\
  exists row, In row (rows df) /\
    journal_name row = matched /\ impact_factor row = factor /\
    match kind with
    | exact => score = None /\ journal_name_lower row = Text (clean ext)
    | fuzzy =>
        exists x, journal_name_lower row = Text x /\
          score = Some (round3 (calculate_similarity x (clean ext))) /\
          (default_threshold <= calculate_similarity x (clean ext))%Q
    end.

(** A success record reports the name that the extractor found in the
    document, and the journal name and impact factor of one and the same row
    of the table: for an exact match a row whose normalized name is the
    normalized extracted name, with no similarity; for a fuzzy match a row
    that scores at least the default threshold, with that score as
    [round(x, 3)] gives it. *)
Theorem success_reports_a_table_row
    (sheet : excel_sheet) (doc : document) (df : DataFrame)
    (ext : pystr) (matched : cell) (factor : Q) (kind : match_type)
    (score : option Q) :
  snd (process_pdf sheet doc (Some df)) = Ok (Success ext matched factor kind score) ->
  success_from doc df ext matched factor kind score.
Proof.
  unfold process_pdf. destruct (process_with doc df) as [df' r] eqn:P.
  cbn [snd]. intros ->.
  destruct (process_with_cases doc df)
    as [(e' & _ & P')|(text & md & Ht & Hm & [[_ P']|[ext' Hx]])];
    try (rewrite P' in P; discriminate).
  rewrite (process_with_lookup doc df text md ext' Ht Hm Hx) in P.
  destruct (snd (get_impact_factor ext' df default_threshold))
    as [[m|]|e'] eqn:G; try discriminate.
  pose proof (get_impact_factor_match ext' df default_threshold m G) as M.
  destruct m as [n f|n f sc]; cbn [of_match] in P;
    injection P as _ -> -> -> <- <-; (split; [exists text, md; auto|]).
  - destruct M as (row & I & M1 & M2 & M3). exists row. auto.
  - destruct M as (row & x & I & M1 & M2 & T & M3 & M4 & _). exists row.
    split; [exact I|]. split; [exact M1|]. split; [exact M2|].
    exists x. split; [exact T|]. split; [rewrite M3; reflexivity | exact M4].
Qed.

(** A PDF whose subject names a journal of [three_journals] nearly. *)
Definition misspelt_pdf : document :=
  Doc (s "papers/misspelt.pdf") (s "misspelt.pdf")
      (Ok (s "A letter")) (Ok [(s "/Subject", s "Nature Physic, 2023")]).

Lemma success_reports_a_table_row_witness :
  success_from misspelt_pdf three_journals (s "Nature Physic")
    (Text (s "Nature Physics")) 18.4%Q fuzzy (Some (963 # 1000)%Q).
Proof.
  apply (success_reports_a_table_row no_table_file misspelt_pdf three_journals).
  vm_compute. reflexivity.
Defined.

(** A not-found record says that a name was extracted from the document,
    that the table has rows, all of which have a name, and that no row
    matches the extracted name exactly or scores the default threshold or
    more against it. *)
Theorem not_found_means_no_row_qualifies
    (sheet : excel_sheet) (doc : document) (df : DataFrame)
    (msg : message) (ext : pystr) :
  snd (process_pdf sheet doc (Some df)) = Ok (NotFound msg ext) ->
  msg = NoMatchingJournal /\
  (exists text md,
     extract_text_from_pdf doc = Ok text /\ extract_metadata doc = Ok md /\
     Extractor.extract_journal_name text md = Some ext) /\
  rows df <> [] /\
  forall row, In row (rows df) ->
    exists x, journal_name_lower row = Text x /\
      x <> clean ext /\
      (calculate_similarity x (clean ext) < default_threshold)%Q.
Proof.
  unfold process_pdf. destruct (process_with doc df) as [df' r] eqn:P.
  cbn [snd]. intros ->.
  destruct (process_with_cases doc df)
    as [(e' & _ & P')|(text & md & Ht & Hm & [[_ P']|[ext' Hx]])];
    try (rewrite P' in P; discriminate).
  rewrite (process_with_lookup doc df text md ext' Ht Hm Hx) in P.
  destruct (snd (get_impact_factor ext' df default_threshold))
    as [[m|]|e'] eqn:G; try discriminate.
  - destruct m; discriminate.
  - injection P as _ <- <-. split; [reflexivity|].
    split; [exists text, md; auto|].
    exact (get_impact_factor_none ext' df default_threshold G).
Qed.

Lemma not_found_means_no_row_qualifies_witness :
  NoMatchingJournal = NoMatchingJournal /\
  (exists text md,
     extract_text_from_pdf named_pdf = Ok text /\
     extract_metadata named_pdf = Ok md /\
     Extractor.extract_journal_name text md = Some (s "Nature")) /\
  rows (table_of [(Text (s "Science"), 45.8%Q)]) <> [] /\
  forall row, In row (rows (table_of [(Text (s "Science"), 45.8%Q)])) ->
    exists x, journal_name_lower row = Text x /\
      x <> clean (s "Nature") /\
      (calculate_similarity x (clean (s "Nature")) < default_threshold)%Q.
Proof.
  apply (not_found_means_no_row_qualifies no_table_file named_pdf
           (table_of [(Text (s "Science"), 45.8%Q)]) NoMatchingJournal
           (s "Nature")).
  vm_compute. reflexivity.
Defined.

(** The outcome of a document depends on its text through the first 2000
    characters only: two documents whose readers succeed, with the same
    metadata and texts that agree up to there, are processed alike. *)
Theorem outcome_depends_on_first_2000_characters
    (doc1 doc2 : document) (df : DataFrame) (text1 text2 : pystr)
    (md : Extractor.metadata) :
  extract_text_from_pdf doc1 = Ok text1 ->
  extract_text_from_pdf doc2 = Ok text2 ->
  extract_metadata doc1 = Ok md ->
  extract_metadata doc2 = Ok md ->
  slice_to 2000 text1 = slice_to 2000 text2 ->
  process_with doc1 df = process_with doc2 df.
Proof.
  intros H1 H2 M1 M2 E. unfold process_with. rewrite H1, H2, M1, M2.
  unfold Extractor.extract_journal_name. rewrite E.
  assert (E5 : slice_to 500 text1 = slice_to 500 text2).
  { unfold slice_to in *.
    replace 500 with (Nat.min 500 2000) by reflexivity.
    rewrite <- !firstn_firstn, E. reflexivity. }
  rewrite E5. reflexivity.
Qed.

Lemma outcome_depends_on_first_2000_characters_witness :
  process_with
    (Doc (s "a.pdf") (s "a.pdf") (Ok (repeat "x"%char 2000 ++ s "Journal: Cell"))
       (Ok []))
    three_journals
  = process_with
      (Doc (s "a.pdf") (s "a.pdf") (Ok (repeat "x"%char 2000)) (Ok []))
      three_journals.
Proof.
  apply (outcome_depends_on_first_2000_characters _ _ three_journals
           (repeat "x"%char 2000 ++ s "Journal: Cell") (repeat "x"%char 2000) []);
    [reflexivity | reflexivity | reflexivity | reflexivity
    | vm_compute; reflexivity].
Defined.

Lemma process_all_shape (sheet : excel_sheet) (pdf_files : list document) :
  forall df,
    rows (fst (process_all sheet pdf_files df)) = rows df /\
    (forall e, snd (process_all sheet pdf_files df) = Raise e ->
               (has_blank df = true /\ e = AttributeError) \/
               (rows df = [] /\ e = ValueError)) /\
    (forall batch_results,
       snd (process_all sheet pdf_files df) = Ok batch_results ->
       map line_path batch_results = map file_path pdf_files /\
       map line_name batch_results = map file_name pdf_files).
Proof.
  induction pdf_files as [|doc rest IH]; intro df.
  - cbn [process_all fst snd map]. split; [reflexivity|]. split.
    + discriminate.
    + intros l H. injection H as <-. split; reflexivity.
  - cbn [process_all]. unfold process_pdf.
    pose proof (process_with_rows doc df) as Hr.
    pose proof (process_with_raises_table doc df) as Hx.
    destruct (process_with doc df) as [df1 r]. cbn [fst snd] in Hr, Hx.
    destruct r as [o|e1].
    + destruct (IH df1) as (R & X & S0).
      destruct (process_all sheet rest df1) as [df2 [lines|e2]];
        cbn [fst snd] in *.
      * split; [congruence|]. split; [discriminate|].
        intros l H. injection H as <-. cbn [map line_path line_name].
        destruct (S0 lines eq_refl) as [S1 S2]. rewrite S1, S2.
        split; reflexivity.
      * split; [congruence|]. split; [|discriminate].
        intros e H. injection H as <-.
        rewrite <- (has_blank_rows _ _ Hr), <- Hr. exact (X e2 eq_refl).
    + cbn [fst snd]. split; [exact Hr|]. split; [|discriminate].
      intros e H. injection H as <-. exact (Hx e1 eq_refl).
Qed.

(** When the batch returns its report, the report has exactly one line per
    file found, in the order of the files, each with the path and the name of
    its file; this holds on every table, loaded or passed in. *)
Theorem batch_report_follows_the_files
    (pdf_files : list document) (sheet : excel_sheet)
    (journal_df : option DataFrame) (batch_results : list report_line) :
  snd (batch_process_pdfs (Ok pdf_files) sheet journal_df) = Ok batch_results ->
  length batch_results = length pdf_files /\
  map line_path batch_results = map file_path pdf_files /\
  map line_name batch_results = map file_name pdf_files.
Proof.
  intro H.
  assert (G : map line_path batch_results = map file_path pdf_files /\
              map line_name batch_results = map file_name pdf_files).
  { unfold batch_process_pdfs in H. destruct pdf_files as [|doc rest].
    - cbn in H. injection H as <-. split; reflexivity.
    - cbn [length Nat.eqb] in H. destruct journal_df as [df|].
      + destruct (process_all_shape sheet (doc :: rest) df) as (_ & _ & S0).
        destruct (process_all sheet (doc :: rest) df) as [df' r].
        cbn [snd] in *. exact (S0 _ H).
      + destruct (load_journal_database sheet) as [df|e]; [|discriminate].
        cbn [snd] in H.
        destruct (process_all_shape sheet (doc :: rest) df) as (_ & _ & S0).
        exact (S0 _ H). }
  split; [|exact G]. destruct G as [G _].
  apply (f_equal (@length pystr)) in G. rewrite !length_map in G. exact G.
Qed.

Lemma batch_report_follows_the_files_witness :
  length [Line (s "papers/damaged.pdf") (s "damaged.pdf")
            (Error (ReadFailed (OtherError (s "EOF marker not found"))) None);
          Line (s "papers/letter.pdf") (s "letter.pdf")
            (Success (s "Nature") (Text (s "Nature")) 69.5%Q exact None)]
    = length [damaged_pdf; named_pdf] /\
  map line_path
      [Line (s "papers/damaged.pdf") (s "damaged.pdf")
         (Error (ReadFailed (OtherError (s "EOF marker not found"))) None);
       Line (s "papers/letter.pdf") (s "letter.pdf")
         (Success (s "Nature") (Text (s "Nature")) 69.5%Q exact None)]
    = map file_path [damaged_pdf; named_pdf] /\
  map line_name
      [Line (s "papers/damaged.pdf") (s "damaged.pdf")
         (Error (ReadFailed (OtherError (s "EOF marker not found"))) None);
       Line (s "papers/letter.pdf") (s "letter.pdf")
         (Success (s "Nature") (Text (s "Nature")) 69.5%Q exact None)]
    = map file_name [damaged_pdf; named_pdf].
Proof.
  apply (batch_report_follows_the_files [damaged_pdf; named_pdf] no_table_file
           (Some three_journals)).
  vm_compute. reflexivity.
Defined.

(** A batch never changes the rows of the table it is given, whether it
    returns its report or raises; it may leave a column [similarity]. *)
Theorem batch_keeps_the_rows
    (find_all_pdfs : result (list document)) (sheet : excel_sheet)
    (df : DataFrame) :
  exists df',
    fst (batch_process_pdfs find_all_pdfs sheet (Some df)) = Some df' /\
    rows df' = rows df.
Proof.
  unfold batch_process_pdfs. destruct find_all_pdfs as [pdf_files|e].
  - destruct (length pdf_files =? 0); [exists df; split; reflexivity|].
    destruct (process_all_shape sheet pdf_files df) as (R & _).
    destruct (process_all sheet pdf_files df) as [df' r]. cbn [fst] in *.
    exists df'. split; [reflexivity | exact R].
  - exists df. split; reflexivity.
Qed.

(** The batch raises in four cases only: the search for the files raised;
    loading the table raised when no table was passed in and there are files
    to process; a name cell of the table at hand is blank
    ([AttributeError]); or that table has no rows ([ValueError]). Nothing
    that a reader raises leaves the batch. *)
Theorem batch_raises_in_four_cases
    (find_all_pdfs : result (list document)) (sheet : excel_sheet)
    (journal_df : option DataFrame) (e : exception) :
  snd (batch_process_pdfs find_all_pdfs sheet journal_df) = Raise e ->
  find_all_pdfs = Raise e \/
  (journal_df = None /\ load_journal_database sheet = Raise e) \/
  exists df,
    table_at_hand sheet journal_df df /\
    ((has_blank df = true /\ e = AttributeError) \/
     (rows df = [] /\ e = ValueError)).
Proof.
  unfold batch_process_pdfs, table_at_hand.
  destruct find_all_pdfs as [pdf_files|e0].
  - destruct (length pdf_files =? 0); [discriminate|].
    destruct journal_df as [df|].
    + destruct (process_all_shape sheet pdf_files df) as (_ & X & _).
      destruct (process_all sheet pdf_files df) as [df' r]. cbn [snd] in *.
      intro H. right. right. exists df. split; [left; reflexivity|].
      exact (X e H).
    + destruct (load_journal_database sheet) as [df|e0]; cbn [snd].
      * intro H.
        destruct (process_all_shape sheet pdf_files df) as (_ & X & _).
        right. right. exists df.
        split; [right; split; reflexivity | exact (X e H)].
      * intro H. injection H as <-. right. left. split; reflexivity.
  - cbn [snd]. intro H. injection H as <-. left. reflexivity.
Qed.

Lemma batch_raises_in_four_cases_witness :
  snd (batch_process_pdfs (Ok [damaged_pdf; cell_pdf]) blank_name_sheet None)
    = Raise AttributeError /\
  (Ok [damaged_pdf; cell_pdf] = @Raise (list document) AttributeError \/
   (@None DataFrame = None /\
    load_journal_database blank_name_sheet = Raise AttributeError) \/
   exists df,
     table_at_hand blank_name_sheet None df /\
     ((has_blank df = true /\ AttributeError = AttributeError) \/
      (rows df = [] /\ AttributeError = ValueError))).
Proof.
  assert (H : snd (batch_process_pdfs (Ok [damaged_pdf; cell_pdf])
                     blank_name_sheet None) = Raise AttributeError)
    by (vm_compute; reflexivity).
  split; [exact H|].
  exact (batch_raises_in_four_cases (Ok [damaged_pdf; cell_pdf])
           blank_name_sheet None AttributeError H).
Defined.

Lemma batch_isolated_on_nonempty_table_witness :
  exists df' batch_results,
    batch_process_pdfs (Ok [damaged_pdf; named_pdf]) no_table_file
      (Some three_journals) = (Some df', Ok batch_results) /\
    rows df' = rows three_journals /\
    Forall2 (line_for three_journals) [damaged_pdf; named_pdf] batch_results.
Proof.
  apply (batch_isolated_on_nonempty_table no_table_file
           [damaged_pdf; named_pdf] three_journals).
  - discriminate.
  - reflexivity.
Defined.

Lemma read_error_is_isolated_witness :
  process_all no_table_file (damaged_pdf :: [named_pdf]) three_journals =
    match process_all no_table_file [named_pdf] three_journals with
    | (df', Ok batch_results) =>
        (df', Ok (Line (file_path damaged_pdf) (file_name damaged_pdf)
                    (Error (ReadFailed (OtherError (s "EOF marker not found"))) None)
                  :: batch_results))
    | (df', Raise x) => (df', Raise x)
    end.
Proof.
  apply (read_error_is_isolated no_table_file damaged_pdf [named_pdf]
           three_journals (OtherError (s "EOF marker not found"))).
  right. exists (s "Journal: Nature Physics"). split; reflexivity.
Defined.

End PipelineExtras.

(** ** The summary *)

Section ReportExtras.
Import PyStr.
Import Resolver.
Import Pipeline.
Import Report.

Lemma count_status_partition (results : list report_line) :
  count_status success results + count_status not_found results
  + count_status error results = length results.
Proof.
  induction results as [|r rest IH]; [reflexivity|].
  cbn [count_status length].
  destruct (status_of (line_outcome r)); cbn [status_eqb]; lia.
Qed.

(** As exact fractions the three percentages add up to 100. *)
Lemma percent_sum (a b c n : nat) :
  a + b + c = n -> 0 < n ->
  (percent a n + percent b n + percent c n == 100)%Q.
Proof.
  intros H Hn. unfold percent.
  change (Z.of_nat a # 1)%Q with (inject_Z (Z.of_nat a)).
  change (Z.of_nat b # 1)%Q with (inject_Z (Z.of_nat b)).
  change (Z.of_nat c # 1)%Q with (inject_Z (Z.of_nat c)).
  change (Z.of_nat n # 1)%Q with (inject_Z (Z.of_nat n)).
  assert (Nz : ~ (inject_Z (Z.of_nat n) == 0)%Q).
  { unfold Qeq. cbn [Qnum Qden inject_Z]. lia. }
  assert (E : (inject_Z (Z.of_nat a) + inject_Z (Z.of_nat b)
               + inject_Z (Z.of_nat c) == inject_Z (Z.of_nat n))%Q).
  { rewrite <- !inject_Z_plus. rewrite <- !Nat2Z.inj_add, H. apply Qeq_refl. }
  setoid_replace (inject_Z (Z.of_nat a) / inject_Z (Z.of_nat n) * 100
                  + inject_Z (Z.of_nat b) / inject_Z (Z.of_nat n) * 100
                  + inject_Z (Z.of_nat c) / inject_Z (Z.of_nat n) * 100)%Q
    with ((inject_Z (Z.of_nat a) + inject_Z (Z.of_nat b)
           + inject_Z (Z.of_nat c)) / inject_Z (Z.of_nat n) * 100)%Q
    by (field; exact Nz).
  rewrite E. field. exact Nz.
Qed.

(** The summary exists exactly for a list of results that is not empty, so
    the percentages never divide by zero; its total is the number of results,
    and every result is counted in exactly one of the three status counts. *)
Theorem summary_counts_every_result_once (results : list report_line) :
  match print_summary results with
  | None => results = []
  | Some sm =>
      0 < total sm /\
      total sm = length results /\
      success_count sm + not_found_count sm + error_count sm = total sm
  end.
Proof.
  destruct results as [|r rest]; [reflexivity|].
  cbn [print_summary total success_count not_found_count error_count].
  split; [cbn [length]; lia|]. split; [reflexivity|].
  apply count_status_partition.
Qed.

(** The summary of the report of a batch over at least one file counts
    exactly the files found. *)
Theorem summary_of_a_batch_counts_the_files
    (pdf_files : list document) (sheet : excel_sheet)
    (journal_df : option DataFrame) (batch_results : list report_line) :
  pdf_files <> [] ->
  snd (batch_process_pdfs (Ok pdf_files) sheet journal_df) = Ok batch_results ->
  exists sm,
    print_summary batch_results = Some sm /\
    total sm = length pdf_files /\
    success_count sm + not_found_count sm + error_count sm = length pdf_files.
Proof.
  intros Hne H.
  assert (L : length batch_results = length pdf_files).
  { unfold batch_process_pdfs in H. destruct pdf_files as [|doc rest];
      [congruence|].
    cbn [length Nat.eqb] in H.
    assert (G : forall df,
               snd (process_all sheet (doc :: rest) df) = Ok batch_results ->
               length batch_results = length (doc :: rest)).
    { intros df G.
      destruct (process_all_shape sheet (doc :: rest) df) as (_ & _ & S0).
      destruct (S0 _ G) as [S1 _].
      apply (f_equal (@length pystr)) in S1. rewrite !length_map in S1.
      exact S1. }
    destruct journal_df as [df|].
    - apply (G df). destruct (process_all sheet (doc :: rest) df) as [df' r].
      exact H.
    - destruct (load_journal_database sheet) as [df|e]; [|discriminate].
      exact (G df H). }
  destruct batch_results as [|r rest].
  - destruct pdf_files; [congruence | discriminate].
  - eexists. split; [reflexivity|].
    cbn [total success_count not_found_count error_count].
    split; [exact L|]. rewrite <- L. apply count_status_partition.
Qed.

Lemma summary_of_a_batch_counts_the_files_witness :
  exists sm,
    print_summary
      [Line (s "papers/damaged.pdf") (s "damaged.pdf")
         (Error (ReadFailed (OtherError (s "EOF marker not found"))) None);
       Line (s "papers/letter.pdf") (s "letter.pdf")
         (Success (s "Nature") (Text (s "Nature")) 69.5%Q exact None)] = Some sm /\
    total sm = length [damaged_pdf; named_pdf] /\
    success_count sm + not_found_count sm + error_count sm
      = length [damaged_pdf; named_pdf].
Proof.
  apply (summary_of_a_batch_counts_the_files [damaged_pdf; named_pdf]
           no_table_file (Some three_journals)).
  - discriminate.
  - vm_compute. reflexivity.
Defined.

End ReportExtras.

(** ** Matching blocks are common substrings *)

Section MatcherSoundness.
Import PyStr.
Import Difflib.

Variables a b : pystr.













End MatcherSoundness.

Section SimilarityExtras.
Import PyStr.
Import Resolver.



End SimilarityExtras.
